(** * odemindf: state store, persistence synchronizer, state loader and
      image ingestion of the portfolio CMS front end

    The development embeds three source files:
    - the application shell ([App], file [src/unnamed/part_000]): the state
      loader, the debounced persistence effect and the CRUD mutators;
    - the admin view that carries the 10 MB guard and the [onerror] handler
      (file [src/unnamed/part_001], module [AdminView]);
    - the admin view stored as [src/components/AdminView.tsx]
      (module [ComponentsAdminView]), an older copy of the same component.

    Host facilities (JSON.parse, JSON.stringify, the image decoder, the
    canvas encoder, window.confirm, localStorage.setItem) are not code of the
    repository: they enter as parameters, and concrete stand-ins are given
    only to evaluate the definitions on examples. *)

From stdpp Require Import gmap strings list pretty sorting.
From Stdlib Require Import ZArith Lia.
From Stdlib Require QArith.

Local Open Scope string_scope.
Local Open Scope list_scope.
Set Warnings "-register-all".
Set Default Proof Using "Type".

(** ** Data model (types.ts, as used by the sources) *)

(** Modelled from the spec: [types.ts] is not among the sources.  The
    records take their fields from the object literals of [constants.tsx] and
    from the forms of the admin view.  The [Category] enum and the [status]
    union are string valued in the code ([Object.values(Category)] feeds
    option values, [status: 'COMPLETED']), so both are carried as their
    string values. *)
Definition Category := string.

Record Project := mkProject {
  prj_id : string;
  prj_title : string;
  prj_category : Category;
  prj_date : string;
  prj_description : string;
  prj_imageUrls : list string;
  prj_client : string;
  prj_status : string
}.

Record ArchiveItem := mkArchiveItem {
  arc_id : string;
  arc_year : string;
  arc_company : string;
  arc_category : string;
  arc_project : string;
  arc_imageUrl : string
}.

Record Service := mkService {
  svc_id : string;
  svc_number : string;
  svc_title : string;
  svc_description : string
}.

Record AppState := mkAppState {
  projects : list Project;
  archiveItems : list ArchiveItem;
  services : list Service;
  siteTitle : string;
  tagline : string
}.

(** ** constants.tsx *)

Definition INITIAL_PROJECTS : list Project :=
  [ mkProject "ODM-PRJ-2004-001" "CYBER-PUNK BRANDING" "BRANDING" "2004-03-12"
      "Visual identity system for a futuristic tech startup based in Seoul."
      ["https://picsum.photos/seed/odemind1/800/600"] "NEO-SEOUL CO." "COMPLETED";
    mkProject "ODM-PRJ-2004-002" "URBAN SPACE DESIGN" "SPACE" "2004-02-15"
      "Minimalist industrial interior design for a flagship concept store."
      ["https://picsum.photos/seed/odemind2/800/600"] "VOID ATELIER" "COMPLETED" ].

Definition INITIAL_ARCHIVE : list ArchiveItem :=
  [ mkArchiveItem "1" "2015 - Present" "Le Labo" "Retail, Beauty"
      "Ecommerce & Photography" "https://picsum.photos/seed/lelabo/400/600";
    mkArchiveItem "2" "2019 - Present" "Huckberry" "Retail, Apparel"
      "Headless Ecommerce Launch" "https://picsum.photos/seed/huckberry/400/600" ].

Definition INITIAL_SERVICES : list Service :=
  [ mkService "S-01" "01" "CONTENT ARCHITECTURE"
      "Optimizing brand positioning through strategic planning that evolves with the times.";
    mkService "S-02" "02" "BRANDING SYSTEMS"
      "Mastering brand positioning through strategic planning and evolved visual identity" ].

(** ** JavaScript values, as far as the sources inspect them

    [JSON.parse] yields a [value]; a property read yields [None] for
    [undefined].  Numbers are carried as integers: the sources never compute
    with a parsed number, only its truthiness (zero or not) is observed. *)
Inductive value :=
| VNull
| VBool (b : bool)
| VNum (n : Z)
| VStr (s : string)
| VArr (items : list value)
| VObj (fields : list (string * value)).

(** A thrown value, as far as the [catch] clauses look at it:
    [e instanceof Error] and [e.name]. *)
Record Exn := mkExn { exn_is_Error : bool; exn_name : string }.

Definition QuotaExceededError : Exn := mkExn true "QuotaExceededError".
Definition TypeError : Exn := mkExn true "TypeError".
Definition SyntaxError : Exn := mkExn true "SyntaxError".

(** A [try] block is a computation in [Exn + A]. *)
Definition bind_exn {A B} (m : Exn + A) (k : A → Exn + B) : Exn + B :=
  match m with
  | inl e => inl e
  | inr a => k a
  end.

Notation "'let!' x ':=' m 'in' k" := (bind_exn m (fun x => k))
  (at level 10, x name, m at level 100, k at level 200).

(* ToBoolean *)
Definition truthy (v : value) : bool :=
  match v with
  | VNull => false
  | VBool b => b
  | VNum n => negb (n =? 0)%Z
  | VStr s => negb (bool_decide (s = EmptyString))
  | VArr _ => true
  | VObj _ => true
  end.

(* ToBoolean of a possibly undefined value *)
Definition truthy_opt (o : option value) : bool :=
  match o with
  | Some v => truthy v
  | None => false
  end.

Fixpoint assoc (k : string) (fields : list (string * value)) : option value :=
  match fields with
  | [] => None
  | (k', v) :: rest => if bool_decide (k' = k) then Some v else assoc k rest
  end.

(** [v.k] for the two property names the sources read, [projects] and
    [archiveItems]: no prototype defines them, so only an object's own
    fields answer; reading a property of [null] throws a TypeError. *)
Definition get_prop (v : value) (k : string) : Exn + option value :=
  match v with
  | VNull => inl TypeError
  | VObj fields => inr (assoc k fields)
  | _ => inr None
  end.

(* Array.isArray *)
Definition isArray (o : option value) : bool :=
  match o with
  | Some (VArr _) => true
  | _ => false
  end.

(* obj[k] = v on an object kept in insertion order *)
Fixpoint set_prop (k : string) (v : value) (fields : list (string * value))
    : list (string * value) :=
  match fields with
  | [] => [(k, v)]
  | (k', v') :: rest =>
      if bool_decide (k' = k) then (k', v) :: rest else (k', v') :: set_prop k v rest
  end.

(** The own enumerable properties an object spread copies.  An array spreads
    its indices and a string its characters; the other primitives spread
    nothing. *)
Definition own_props (v : value) : list (string * value) :=
  match v with
  | VObj fields => fields
  | VArr items => imap (fun i x => (pretty i, x)) items
  | VStr s => imap (fun i c => (pretty i, VStr (String c EmptyString))) (String.list_ascii_of_string s)
  | _ => []
  end.

(* { ...a, ...b } for an object a *)
Definition spread (a : list (string * value)) (b : value) : value :=
  VObj (foldl (fun acc kv => set_prop kv.1 kv.2 acc) a (own_props b)).

(** The value of a typed record, field order as the object literals of the
    sources write them. *)
Definition Project_to_value (p : Project) : value :=
  VObj [("id", VStr (prj_id p)); ("title", VStr (prj_title p));
        ("category", VStr (prj_category p)); ("date", VStr (prj_date p));
        ("description", VStr (prj_description p));
        ("imageUrls", VArr (map VStr (prj_imageUrls p)));
        ("client", VStr (prj_client p)); ("status", VStr (prj_status p))].

Definition ArchiveItem_to_value (a : ArchiveItem) : value :=
  VObj [("id", VStr (arc_id a)); ("year", VStr (arc_year a));
        ("company", VStr (arc_company a)); ("category", VStr (arc_category a));
        ("project", VStr (arc_project a)); ("imageUrl", VStr (arc_imageUrl a))].

Definition Service_to_value (s : Service) : value :=
  VObj [("id", VStr (svc_id s)); ("number", VStr (svc_number s));
        ("title", VStr (svc_title s)); ("description", VStr (svc_description s))].

Definition AppState_fields (s : AppState) : list (string * value) :=
  [("projects", VArr (map Project_to_value (projects s)));
   ("archiveItems", VArr (map ArchiveItem_to_value (archiveItems s)));
   ("services", VArr (map Service_to_value (services s)));
   ("siteTitle", VStr (siteTitle s));
   ("tagline", VStr (tagline s))].

Definition AppState_to_value (s : AppState) : value := VObj (AppState_fields s).

(** ** Observable effects

    Alerts, storage writes, file reads, decodes and page reloads are recorded
    in a trace, in the order the code performs them. *)
Inductive Event :=
| EvAlert (msg : string)
| EvSetItem (key val : string) (ok : bool)
| EvReadAsDataURL (file_name : string)
| EvDecode (src : string)
| EvReload.

(** A promise is observed as settled with a value, or as never settling. *)
Inductive Promise (A : Type) :=
| Resolved (a : A)
| Pending.
Arguments Resolved {A} a.
Arguments Pending {A}.

(** ** The application shell: [App] (src/unnamed/part_000) *)
Module App.

Definition STORAGE_KEY : string := "odemind_archive_v5_final".

(** *** The updaters handed to [setState] (lines 76-106)

    Each one is the arrow function [prev => ...] of the source, with [prev]
    as last argument. *)
Module Updater.

(* { ...prev, projects: ps } *)
Definition with_projects (prev : AppState) (ps : list Project) : AppState :=
  {| projects := ps; archiveItems := archiveItems prev;
     services := services prev; siteTitle := siteTitle prev;
     tagline := tagline prev |}.

(* { ...prev, archiveItems: items } *)
Definition with_archiveItems (prev : AppState) (items : list ArchiveItem) : AppState :=
  {| projects := projects prev; archiveItems := items;
     services := services prev; siteTitle := siteTitle prev;
     tagline := tagline prev |}.

Definition updateProject (id : string) (updated : Project) (prev : AppState) : AppState :=
  with_projects prev
    (map (fun p => if bool_decide (prj_id p = id) then updated else p) (projects prev)).

Definition addProject (project : Project) (prev : AppState) : AppState :=
  with_projects prev (project :: projects prev).

Definition deleteProject (id : string) (prev : AppState) : AppState :=
  with_projects prev (filter (fun p => prj_id p ≠ id) (projects prev)).

Definition updateArchiveItem (id : string) (updated : ArchiveItem) (prev : AppState)
    : AppState :=
  with_archiveItems prev
    (map (fun item => if bool_decide (arc_id item = id) then updated else item)
         (archiveItems prev)).

Definition addArchiveItem (item : ArchiveItem) (prev : AppState) : AppState :=
  with_archiveItems prev (item :: archiveItems prev).

Definition deleteArchiveItem (id : string) (prev : AppState) : AppState :=
  with_archiveItems prev (filter (fun item => arc_id item ≠ id) (archiveItems prev)).

Definition updateSettings (new_title new_tagline : string) (prev : AppState) : AppState :=
  {| projects := projects prev; archiveItems := archiveItems prev;
     services := services prev; siteTitle := new_title; tagline := new_tagline |}.

End Updater.

(** *** The component instance

    [timers] is the host's table of pending [setTimeout] callbacks; the only
    callback of this component is the write of lines 43-53, which closes
    over the [state] of the render that armed it, so a table entry carries
    that state.  [cleanup] is the timer id captured by the cleanup function
    the last effect run returned.  [now] is the host clock in
    milliseconds; [trace] stamps each effect with the time it happened. *)
Record Timer := mkTimer { tm_id : nat; tm_due : Z; tm_state : AppState }.

Record Env := mkEnv {
  now : Z;
  state : AppState;
  isSyncing : bool;
  timers : list Timer;
  next_timer_id : nat;
  cleanup : option nat;
  localStorage : gmap string string;
  trace : list (Z * Event)
}.

Definition defaultState : AppState :=
  {| projects := INITIAL_PROJECTS;
     archiveItems := INITIAL_ARCHIVE;
     services := INITIAL_SERVICES;
     siteTitle := "ODEMIND";
     tagline := "ODEMIND OPERATES AS AN ASIAN CONTENT AND DISTRIBUTION HUB, COLLABORATING WITH STRATEGIC PARTNERS ACROSS CHINA, TAIWAN, HONG KONG, AND INDONESIA." |}.

Definition QUOTA_ALERT : string :=
  "CRITICAL_ERROR: STORAGE_LIMIT_EXCEEDED." +:+ String (Ascii.ascii_of_nat 10) EmptyString +:+
  "이미지가 너무 많거나 큽니다. 일부 프로젝트를 삭제하거나 이미지를 줄여주세요.".

Definition set_state (s : AppState) (e : Env) : Env :=
  mkEnv (now e) s (isSyncing e) (timers e) (next_timer_id e) (cleanup e)
        (localStorage e) (trace e).

Definition setIsSyncing (b : bool) (e : Env) : Env :=
  mkEnv (now e) (state e) b (timers e) (next_timer_id e) (cleanup e)
        (localStorage e) (trace e).

Definition set_timers (ts : list Timer) (e : Env) : Env :=
  mkEnv (now e) (state e) (isSyncing e) ts (next_timer_id e) (cleanup e)
        (localStorage e) (trace e).

Definition set_now (t : Z) (e : Env) : Env :=
  mkEnv t (state e) (isSyncing e) (timers e) (next_timer_id e) (cleanup e)
        (localStorage e) (trace e).

Definition set_localStorage (ls : gmap string string) (e : Env) : Env :=
  mkEnv (now e) (state e) (isSyncing e) (timers e) (next_timer_id e) (cleanup e)
        ls (trace e).

Definition emit (ev : Event) (e : Env) : Env :=
  mkEnv (now e) (state e) (isSyncing e) (timers e) (next_timer_id e) (cleanup e)
        (localStorage e) (trace e ++ [(now e, ev)]).

(* setTimeout(callback closing over st, delay): the new timer's id *)
Definition setTimeout (st : AppState) (delay : Z) (e : Env) : nat * Env :=
  let id := next_timer_id e in
  (id, mkEnv (now e) (state e) (isSyncing e)
             (timers e ++ [mkTimer id (now e + delay) st])
             (S id) (cleanup e) (localStorage e) (trace e)).

Definition clearTimeout (id : nat) (e : Env) : Env :=
  set_timers (filter (fun tm => tm_id tm ≠ id) (timers e)) e.

Definition set_cleanup (c : option nat) (e : Env) : Env :=
  mkEnv (now e) (state e) (isSyncing e) (timers e) (next_timer_id e) c
        (localStorage e) (trace e).

Section Host.
(** JSON.parse, JSON.stringify and the two operations of localStorage. *)
Variable JSON_parse : string → Exn + value.
Variable JSON_stringify : value → string.
Variable getItem : gmap string string → string → Exn + option string.
Variable setItem : gmap string string → string → string → Exn + gmap string string.

(** *** State loader: the initializer of [useState] (lines 16-38)

    The result is a JavaScript value: the merge [{...defaultState,
    ...parsed}] carries whatever fields the stored document has. *)
Definition load_try (ls : gmap string string) : Exn + option value :=
  let! saved := getItem ls STORAGE_KEY in
  match saved with
  | None => inr None
  | Some saved =>
      if bool_decide (saved = EmptyString) then inr None
      else
        let! parsed := JSON_parse saved in
        if truthy parsed then
          let! prj := get_prop parsed "projects" in
          if isArray prj
          then inr (Some (spread (AppState_fields defaultState) parsed))
          else inr None
        else inr None
  end.

Definition load (ls : gmap string string) : value :=
  match load_try ls with
  | inr (Some merged) => merged
  | inr None => AppState_to_value defaultState
  | inl _ => (* catch: console.warn *) AppState_to_value defaultState
  end.

(** *** Persistence effect (lines 41-55) *)

(* the callback handed to setTimeout, run when the timer [tm] fires *)
Definition write_callback (tm : Timer) (e : Env) : Env :=
  let payload := JSON_stringify (AppState_to_value (tm_state tm)) in
  match setItem (localStorage e) STORAGE_KEY payload with
  | inr ls' =>
      setIsSyncing false (set_localStorage ls' (emit (EvSetItem STORAGE_KEY payload true) e))
  | inl err =>
      let e1 := setIsSyncing false (emit (EvSetItem STORAGE_KEY payload false) e) in
      if exn_is_Error err && bool_decide (exn_name err = "QuotaExceededError")
      then emit (EvAlert QUOTA_ALERT) e1
      else e1
  end.

(* the effect body: arm the timer, remember it for the cleanup *)
Definition persist_effect (e : Env) : Env :=
  let e1 := setIsSyncing true e in
  let '(timer, e2) := setTimeout (state e1) 500 e1 in
  set_cleanup (Some timer) e2.

(* the cleanup returned by the previous run: clearTimeout(timer) *)
Definition run_cleanup (e : Env) : Env :=
  match cleanup e with
  | Some timer => clearTimeout timer e
  | None => e
  end.

(** [setState(updater)]: the state is replaced by a fresh object, so the
    dependency [state] of the effect changed: React runs the previous
    cleanup, then the effect. *)
Definition setState (updater : AppState → AppState) (e : Env) : Env :=
  persist_effect (run_cleanup (set_state (updater (state e)) e)).

(** The host's timer loop: when the clock reaches [t], the pending timers
    due at or before [t] fire in order of due time, each at its due time.
    The callback arms no timer, so one pass over the due timers is the
    whole loop. *)
Definition timer_le (a b : Timer) : Prop := (tm_due a ≤ tm_due b)%Z.

#[local] Instance timer_le_dec : RelDecision timer_le :=
fun a b => decide (tm_due a ≤ tm_due b)%Z.

Definition fire (e : Env) (tm : Timer) : Env :=
  write_callback tm (set_now (Z.max (now e) (tm_due tm)) e).

Definition advance_to (t : Z) (e : Env) : Env :=
  let due := merge_sort timer_le
               (filter (fun tm => (tm_due tm ≤ t)%Z) (timers e)) in
  let later := filter (fun tm => ¬ (tm_due tm ≤ t)%Z) (timers e) in
  let e1 := foldl fire (set_timers later e) due in
  set_now (Z.max (now e1) t) e1.

(* first render at time t0 with the stored data ls *)
Definition mount (t0 : Z) (initial : AppState) (ls : gmap string string) : Env :=
  persist_effect (mkEnv t0 initial false [] 0 None ls []).

(** *** The mutators passed to the views (lines 76-106); [window_confirm]
    is the user's answer to a confirmation prompt. *)
Definition updateProject (id : string) (updated : Project) : Env → Env :=
  setState (Updater.updateProject id updated).

Definition addProject (project : Project) : Env → Env :=
  setState (Updater.addProject project).

Definition deleteProject_prompt (id : string) : string :=
  "CONFIRM_DELETION: " +:+ id +:+ "?".

Definition deleteProject (window_confirm : string → bool) (id : string) (e : Env) : Env :=
  if window_confirm (deleteProject_prompt id)
  then setState (Updater.deleteProject id) e
  else e.

Definition updateArchiveItem (id : string) (updated : ArchiveItem) : Env → Env :=
  setState (Updater.updateArchiveItem id updated).

Definition addArchiveItem (item : ArchiveItem) : Env → Env :=
  setState (Updater.addArchiveItem item).

Definition deleteArchiveItem_prompt : string := "CONFIRM_DELETION_OF_LOG_RECORD?".

Definition deleteArchiveItem (window_confirm : string → bool) (id : string) (e : Env) : Env :=
  if window_confirm deleteArchiveItem_prompt
  then setState (Updater.deleteArchiveItem id) e
  else e.

Definition updateSettings (new_title new_tagline : string) : Env → Env :=
  setState (Updater.updateSettings new_title new_tagline).

End Host.

(** *** Access to the admin view (lines 10-13, 57-73, 131-141)

    The four pieces of component state behind the CMS button and the
    authentication overlay, and the handlers that change them. *)
Record Auth := mkAuth {
  isAdmin : bool;
  isAuthenticating : bool;
  password : string;
  error : bool
}.

(* useState(false), useState(false), useState(''), useState(false) *)
Definition auth_initial : Auth := mkAuth false false EmptyString false.

Definition handleAdminToggle (a : Auth) : Auth :=
  if isAdmin a
  then mkAuth false (isAuthenticating a) (password a) (error a)
  else mkAuth (isAdmin a) true (password a) (error a).

Definition handleAuth (a : Auth) : Auth :=
  if bool_decide (password a = "0729")
  then mkAuth true false EmptyString false
  else mkAuth (isAdmin a) (isAuthenticating a) EmptyString true.

(* onChange of the passkey input: setPassword(e.target.value); setError(false) *)
Definition password_onChange (typed : string) (a : Auth) : Auth :=
  mkAuth (isAdmin a) (isAuthenticating a) typed false.

(* onClick of CANCEL: setIsAuthenticating(false) *)
Definition cancel_onClick (a : Auth) : Auth :=
  mkAuth (isAdmin a) false (password a) (error a).

(* what the user can do to these four pieces of state *)
Inductive AuthEvent :=
| ClickToggle
| TypePassword (typed : string)
| SubmitAuth
| ClickCancel.

Definition auth_step (a : Auth) (ev : AuthEvent) : Auth :=
  match ev with
  | ClickToggle => handleAdminToggle a
  | TypePassword typed => password_onChange typed a
  | SubmitAuth => handleAuth a
  | ClickCancel => cancel_onClick a
  end.

Definition auth_run (events : list AuthEvent) (a : Auth) : Auth :=
  foldl auth_step a events.

End App.

(** ** Browser objects shared by the two admin views *)

(** A selected file: its size in bytes, what [FileReader.readAsDataURL]
    leaves in [reader.result] ([None] for [null], after a failed read) and what
    [readAsText] delivers to [onload] ([None]: the read fails and [onload]
    never fires). *)
Record File := mkFile {
  file_name : string;
  file_size : Z;
  file_dataURL : option string;
  file_text : option string
}.

(* the drawing calls made on the 2d context *)
Inductive DrawOp :=
| FillRect (fillStyle : string) (x y w h : Z)
| DrawImage (src : string) (x y w h : Z).

Record Canvas := mkCanvas { cv_width : Z; cv_height : Z; cv_ops : list DrawOp }.

(* Partial<Project>: the form data of ProjectForm *)
Record PartialProject := mkPartialProject {
  pp_id : option string;
  pp_title : option string;
  pp_category : option Category;
  pp_client : option string;
  pp_status : option string;
  pp_date : option string;
  pp_description : option string;
  pp_imageUrls : option (list string)
}.

(* { ...prev, imageUrls: urls } *)
Definition pp_with_imageUrls (prev : PartialProject) (urls : list string) : PartialProject :=
  mkPartialProject (pp_id prev) (pp_title prev) (pp_category prev) (pp_client prev)
    (pp_status prev) (pp_date prev) (pp_description prev) (Some urls).

(** The state of a ProjectForm instance: [fileInput] is the value of the
    referenced input element ([None] when the ref is not attached). *)
Record ProjectForm := mkProjectForm {
  formData : PartialProject;
  isProcessing : bool;
  fileInput : option string;
  form_trace : list Event
}.

(* Partial<ArchiveItem>: the form data of ArchiveForm *)
Record PartialArchiveItem := mkPartialArchiveItem {
  pa_id : option string;
  pa_year : option string;
  pa_company : option string;
  pa_category : option string;
  pa_project : option string;
  pa_imageUrl : option string
}.

Record ArchiveForm := mkArchiveForm {
  archiveData : PartialArchiveItem;
  archiveProcessing : bool;
  archive_trace : list Event
}.

(* { ...prev, imageUrl: url } *)
Definition pa_with_imageUrl (prev : PartialArchiveItem) (url : string) : PartialArchiveItem :=
  mkPartialArchiveItem (pa_id prev) (pa_year prev) (pa_company prev) (pa_category prev)
    (pa_project prev) (Some url).

(** ProjectForm.removeImage, the same text in both admin views (part_001
    lines 87-92, components/AdminView.tsx lines 82-87): the updater
    [prev => ({...prev, imageUrls: (prev.imageUrls || []).filter((_, i) => i !== index)})]. *)
Definition removeImage (index : nat) (prev : PartialProject) : PartialProject :=
  pp_with_imageUrls prev
    (map snd
       (filter (fun indexed : nat * string => indexed.1 ≠ index)
          (imap (fun i url => (i, url)) (default [] (pp_imageUrls prev))))).

(* what the import handler touches: the storage and the page *)
Record Browser := mkBrowser {
  bw_localStorage : gmap string string;
  bw_trace : list Event
}.

Definition bw_emit (ev : Event) (w : Browser) : Browser :=
  mkBrowser (bw_localStorage w) (bw_trace w ++ [ev]).

(* the quality argument of toDataURL, a fraction such as 0.4 = 4/10 *)
Definition Quality := QArith_base.Q.

(** [Math.round(a / b)] for integers [a] and [b > 0]: the nearest integer,
    halves upwards. *)
Definition round_div (a b : Z) : Z := ((2 * a + b) / (2 * b))%Z.

(* the string the image element loads: a null reader result becomes "null" *)
Definition src_of (r : option string) : string := default "null" r.

(* files[i] read through FileReader.readAsDataURL *)
Definition readAsDataURL (file : File) : option string := file_dataURL file.

(* if (compressed): the empty string is the only falsy string *)
Definition nonempty (s : string) : bool := negb (bool_decide (s = EmptyString)).

(** ** The admin view of src/unnamed/part_001 *)
Module AdminView.

Section Host.
(** The image decoder ([Some (width, height)] fires [onload], [None] fires
    [onerror]), the 2d context ([false]: [getContext] returns null), the JPEG
    encoder behind [canvas.toDataURL], the JSON built-ins, [setItem] and the
    user's answer to [confirm]. *)
Variable Image_load : string → option (Z * Z).
Variable getContext_2d : bool.
Variable toDataURL : Canvas → string → Quality → string.
Variable JSON_parse : string → Exn + value.
Variable JSON_stringify : value → string.
Variable setItem : gmap string string → string → string → Exn + gmap string string.
Variable window_confirm : string → bool.

(* the body of img.onload (lines 9-28) *)
Definition onload (base64Str : string) (img_width img_height maxWidth : Z) (quality : Quality)
    : string :=
  let '(width, height) :=
    if (img_width >? maxWidth)%Z
    then (maxWidth, round_div (img_height * maxWidth) img_width)
    else (img_width, img_height) in
  let ops :=
    if getContext_2d
    then [FillRect "#FFFFFF" 0 0 width height; DrawImage base64Str 0 0 width height]
    else [] in
  toDataURL (mkCanvas width height ops) "image/jpeg" quality.

(* compressImage (lines 5-31): onload resolves, onerror resolves '' *)
Definition compressImage (base64Str : string) (maxWidth : Z) (quality : Quality) : Promise string :=
  match Image_load base64Str with
  | Some (img_width, img_height) =>
      Resolved (onload base64Str img_width img_height maxWidth quality)
  | None => Resolved EmptyString
  end.

(* the default parameters: maxWidth = 600, quality = 0.4 *)
Definition compressImage_default (base64Str : string) : Promise string :=
  compressImage base64Str 600 (QArith_base.Qmake 4 10).

(** The [for] loop of ProjectForm.handleFileChange (lines 62-77) over the
    files not yet visited; [newUrls] and the trace are the loop's state.  A
    promise that never settles leaves the loop suspended at its [await]. *)
Fixpoint ingest_loop (files : list File) (newUrls : list string) (tr : list Event)
    : Promise (list string) * list Event :=
  match files with
  | [] => (Resolved newUrls, tr)
  | file :: rest =>
      if (file_size file >? 10 * 1024 * 1024)%Z
      then ingest_loop rest newUrls (tr ++ [EvAlert "SKIP: FILE_TOO_LARGE (>10MB)"])
      else
        let base64 := src_of (readAsDataURL file) in
        let tr1 := tr ++ [EvReadAsDataURL (file_name file); EvDecode base64] in
        match compressImage_default base64 with
        | Resolved compressed =>
            ingest_loop rest
              (if nonempty compressed then newUrls ++ [compressed] else newUrls) tr1
        | Pending => (Pending, tr1)
        end
  end.

(* ProjectForm.handleFileChange (lines 55-85); files = e.target.files *)
Definition handleFileChange (files : option (list File)) (c : ProjectForm) : ProjectForm :=
  match files with
  | None => c
  | Some files =>
      match ingest_loop files [] (form_trace c) with
      | (Resolved newUrls, tr) =>
          mkProjectForm
            (pp_with_imageUrls (formData c) (default [] (pp_imageUrls (formData c)) ++ newUrls))
            false
            (match fileInput c with Some _ => Some EmptyString | None => None end)
            tr
      | (Pending, tr) => mkProjectForm (formData c) true (fileInput c) tr
      end
  end.

(** What one file contributes to a batch, for the statements about the
    loop: the encoded string it adds, if any, and the effects it causes. *)
Definition MAX_FILE_SIZE : Z := 10 * 1024 * 1024.

Definition contribution (file : File) : option string :=
  if (file_size file >? MAX_FILE_SIZE)%Z then None
  else match compressImage_default (src_of (readAsDataURL file)) with
       | Resolved compressed => if nonempty compressed then Some compressed else None
       | Pending => None
       end.

Definition file_events (file : File) : list Event :=
  if (file_size file >? MAX_FILE_SIZE)%Z
  then [EvAlert "SKIP: FILE_TOO_LARGE (>10MB)"]
  else [EvReadAsDataURL (file_name file); EvDecode (src_of (readAsDataURL file))].

(* ArchiveForm.handleFileChange (lines 207-221) *)
Definition archive_handleFileChange (files : option (list File)) (c : ArchiveForm)
    : ArchiveForm :=
  match files ≫= head with
  | None => c
  | Some file =>
      let base64 := src_of (readAsDataURL file) in
      let tr := archive_trace c ++ [EvReadAsDataURL (file_name file); EvDecode base64] in
      match compressImage_default base64 with
      | Resolved compressed =>
          mkArchiveForm (pa_with_imageUrl (archiveData c) compressed) false tr
      | Pending => mkArchiveForm (archiveData c) true tr
      end
  end.

Definition IMPORT_KEY : string := "odemind_archive_v5_final".

(* handleImport (lines 294-310) *)
Definition handleImport (files : option (list File)) (w : Browser) : Browser :=
  match files ≫= head with
  | None => w
  | Some file =>
      match file_text file with
      | None => w
      | Some text =>
          let invalid := bw_emit (EvAlert "ERROR: INVALID_DATA_STRUCTURE") in
          match JSON_parse text with
          | inl _ => invalid w
          | inr json =>
              match get_prop json "projects" with
              | inl _ => invalid w
              | inr prj =>
                  if truthy_opt prj then
                    if window_confirm "OVERWRITE CURRENT DATABASE?" then
                      let payload := JSON_stringify json in
                      match setItem (bw_localStorage w) IMPORT_KEY payload with
                      | inr ls' =>
                          bw_emit EvReload
                            (mkBrowser ls' (bw_trace w ++ [EvSetItem IMPORT_KEY payload true]))
                      | inl _ =>
                          invalid (bw_emit (EvSetItem IMPORT_KEY payload false) w)
                      end
                    else w
                  else w
              end
          end
      end
  end.

End Host.

End AdminView.

(** ** The admin view of src/components/AdminView.tsx *)
Module ComponentsAdminView.

Section Host.
Variable Image_load : string → option (Z * Z).
Variable getContext_2d : bool.
Variable toDataURL : Canvas → string → Quality → string.
Variable JSON_parse : string → Exn + value.
Variable JSON_stringify : value → string.
Variable setItem : gmap string string → string → string → Exn + gmap string string.
Variable window_confirm : string → bool.

(* the body of img.onload (lines 10-29) *)
Definition onload (base64Str : string) (img_width img_height maxWidth : Z) (quality : Quality)
    : string :=
  let '(width, height) :=
    if (img_width >? maxWidth)%Z
    then (maxWidth, round_div (img_height * maxWidth) img_width)
    else (img_width, img_height) in
  let ops :=
    if getContext_2d
    then [FillRect "#FFFFFF" 0 0 width height; DrawImage base64Str 0 0 width height]
    else [] in
  toDataURL (mkCanvas width height ops) "image/jpeg" quality.

(** compressImage (lines 6-31): only [onload] is registered; when the
    image fails to load nothing ever calls [resolve]. *)
Definition compressImage (base64Str : string) (maxWidth : Z) (quality : Quality) : Promise string :=
  match Image_load base64Str with
  | Some (img_width, img_height) =>
      Resolved (onload base64Str img_width img_height maxWidth quality)
  | None => Pending
  end.

(* the default parameters: maxWidth = 1000, quality = 0.6 *)
Definition compressImage_default (base64Str : string) : Promise string :=
  compressImage base64Str 1000 (QArith_base.Qmake 6 10).

(* the [for] loop of ProjectForm.handleFileChange (lines 62-72) *)
Fixpoint ingest_loop (files : list File) (newUrls : list string) (tr : list Event)
    : Promise (list string) * list Event :=
  match files with
  | [] => (Resolved newUrls, tr)
  | file :: rest =>
      let base64 := src_of (readAsDataURL file) in
      let tr1 := tr ++ [EvReadAsDataURL (file_name file); EvDecode base64] in
      match compressImage_default base64 with
      | Resolved compressed => ingest_loop rest (newUrls ++ [compressed]) tr1
      | Pending => (Pending, tr1)
      end
  end.

(* ProjectForm.handleFileChange (lines 55-80) *)
Definition handleFileChange (files : option (list File)) (c : ProjectForm) : ProjectForm :=
  match files with
  | None => c
  | Some files =>
      match ingest_loop files [] (form_trace c) with
      | (Resolved newUrls, tr) =>
          mkProjectForm
            (pp_with_imageUrls (formData c) (default [] (pp_imageUrls (formData c)) ++ newUrls))
            false
            (match fileInput c with Some _ => Some EmptyString | None => None end)
            tr
      | (Pending, tr) => mkProjectForm (formData c) true (fileInput c) tr
      end
  end.

(** What one file contributes in this copy, for the statements about the
    loop: the encoding pushed once its promise settles, and its effects. *)
Definition settled (file : File) : option string :=
  match compressImage_default (src_of (readAsDataURL file)) with
  | Resolved compressed => Some compressed
  | Pending => None
  end.

(* the decoder accepts what the reader delivers for this file *)
Definition decodable (file : File) : Prop :=
  Image_load (src_of (readAsDataURL file)) ≠ None.

Definition file_events (file : File) : list Event :=
  [EvReadAsDataURL (file_name file); EvDecode (src_of (readAsDataURL file))].

(* ArchiveForm.handleFileChange (lines 241-255) *)
Definition archive_handleFileChange (files : option (list File)) (c : ArchiveForm)
    : ArchiveForm :=
  match files ≫= head with
  | None => c
  | Some file =>
      let base64 := src_of (readAsDataURL file) in
      let tr := archive_trace c ++ [EvReadAsDataURL (file_name file); EvDecode base64] in
      match compressImage base64 800 (QArith_base.Qmake 6 10) with
      | Resolved compressed =>
          mkArchiveForm (pa_with_imageUrl (archiveData c) compressed) false tr
      | Pending => mkArchiveForm (archiveData c) true tr
      end
  end.

Definition IMPORT_KEY : string := "odemind_archive_v4_prod".

(* handleImport (lines 397-415) *)
Definition handleImport (files : option (list File)) (w : Browser) : Browser :=
  match files ≫= head with
  | None => w
  | Some file =>
      match file_text file with
      | None => w
      | Some text =>
          let invalid := bw_emit (EvAlert "ERROR: INVALID_JSON_STRUCTURE") in
          match JSON_parse text with
          | inl _ => invalid w
          | inr json =>
              match get_prop json "projects" with
              | inl _ => invalid w
              | inr prj =>
                  if truthy_opt prj
                     && match get_prop json "archiveItems" with
                        | inr items => truthy_opt items
                        | inl _ => false
                        end
                  then
                    if window_confirm "WARNING: THIS_WILL_OVERWRITE_ALL_CURRENT_DATA. PROCEED?"
                    then
                      let payload := JSON_stringify json in
                      match setItem (bw_localStorage w) IMPORT_KEY payload with
                      | inr ls' =>
                          bw_emit EvReload
                            (mkBrowser ls' (bw_trace w ++ [EvSetItem IMPORT_KEY payload true]))
                      | inl _ =>
                          invalid (bw_emit (EvSetItem IMPORT_KEY payload false) w)
                      end
                    else w
                  else w
              end
          end
      end
  end.

End Host.

End ComponentsAdminView.

(** ** A concrete host, to run the definitions

    Stand-ins for the browser built-ins, used to evaluate the embedding on
    examples; every theorem below is stated for arbitrary host functions. *)
Module Sample.

(* localStorage with a capacity in characters, keys and values counted *)
Definition used (ls : gmap string string) : Z :=
  map_fold (fun k v n => Z.of_nat (String.length k) + Z.of_nat (String.length v) + n)%Z
    0%Z ls.

Definition setItem (capacity : Z) (ls : gmap string string) (k v : string)
    : Exn + gmap string string :=
  let ls' := <[k := v]> ls in
  if decide (used ls' ≤ capacity)%Z then inr ls' else inl QuotaExceededError.

Definition getItem (ls : gmap string string) (k : string) : Exn + option string :=
  inr (ls !! k).

(* a storage that refuses every write, as in a browser with storage disabled *)
Definition setItem_denied (ls : gmap string string) (k v : string)
    : Exn + gmap string string :=
  inl (mkExn true "SecurityError").

Definition is_char (c : Ascii.ascii) (n : nat) : bool :=
  Nat.eqb (Ascii.nat_of_ascii c) n.

Definition dquote : string := String (Ascii.ascii_of_nat 34) EmptyString.
Definition backslash : string := String (Ascii.ascii_of_nat 92) EmptyString.

(* a JSON string literal; quote, backslash, newline, return and tab escaped *)
Fixpoint escape (s : string) : string :=
  match s with
  | EmptyString => EmptyString
  | String c rest =>
      (if is_char c 34 then backslash +:+ dquote
       else if is_char c 92 then backslash +:+ backslash
       else if is_char c 10 then backslash +:+ "n"
       else if is_char c 13 then backslash +:+ "r"
       else if is_char c 9 then backslash +:+ "t"
       else String c EmptyString) +:+ escape rest
  end.

Definition quoted (s : string) : string := dquote +:+ escape s +:+ dquote.

Definition commas (parts : list string) : string :=
  match parts with
  | [] => EmptyString
  | p :: ps => foldl (fun acc q => acc +:+ "," +:+ q) p ps
  end.

Fixpoint JSON_stringify (v : value) : string :=
  match v with
  | VNull => "null"
  | VBool true => "true"
  | VBool false => "false"
  | VNum n => pretty n
  | VStr s => quoted s
  | VArr items => "[" +:+ commas (map JSON_stringify items) +:+ "]"
  | VObj fields =>
      "{" +:+ commas (map (fun kv => quoted kv.1 +:+ ":" +:+ JSON_stringify kv.2) fields)
          +:+ "}"
  end.

(** A parser for the JSON documents made of objects, arrays, strings with the
    escapes above, integers, [true], [false] and [null]; any other text is a
    SyntaxError. *)
Definition is_ws (c : Ascii.ascii) : bool :=
  is_char c 32 || is_char c 10 || is_char c 13 || is_char c 9.

Fixpoint skip_ws (cs : list Ascii.ascii) : list Ascii.ascii :=
  match cs with
  | c :: rest => if is_ws c then skip_ws rest else cs
  | [] => []
  end.

Definition is_digit (c : Ascii.ascii) : bool :=
  Nat.leb 48 (Ascii.nat_of_ascii c) && Nat.leb (Ascii.nat_of_ascii c) 57.

Fixpoint parse_digits (cs : list Ascii.ascii) (acc : Z) : Z * list Ascii.ascii :=
  match cs with
  | c :: rest =>
      if is_digit c
      then parse_digits rest (10 * acc + Z.of_nat (Ascii.nat_of_ascii c - 48))%Z
      else (acc, cs)
  | [] => (acc, [])
  end.

(* the characters after an opening quote, up to the closing quote *)
Fixpoint parse_chars (cs : list Ascii.ascii) (acc : string)
    : option (string * list Ascii.ascii) :=
  match cs with
  | [] => None
  | c :: rest =>
      if is_char c 34 then Some (acc, rest)
      else if is_char c 92 then
        match rest with
        | e :: rest' =>
            let unescaped :=
              if is_char e 34 then Some dquote
              else if is_char e 92 then Some backslash
              else if is_char e 110 then Some (String (Ascii.ascii_of_nat 10) EmptyString)
              else if is_char e 114 then Some (String (Ascii.ascii_of_nat 13) EmptyString)
              else if is_char e 116 then Some (String (Ascii.ascii_of_nat 9) EmptyString)
              else None in
            match unescaped with
            | Some u => parse_chars rest' (acc +:+ u)
            | None => None
            end
        | [] => None
        end
      else if Nat.ltb (Ascii.nat_of_ascii c) 32 then None
      else parse_chars rest (acc +:+ String c EmptyString)
  end.

Fixpoint strip_prefix (p cs : list Ascii.ascii) : option (list Ascii.ascii) :=
  match p, cs with
  | [], _ => Some cs
  | a :: p', c :: cs' => if Ascii.eqb a c then strip_prefix p' cs' else None
  | _ :: _, [] => None
  end.

Definition literal (word : string) (v : value) (cs : list Ascii.ascii)
    : option (value * list Ascii.ascii) :=
  match strip_prefix (String.list_ascii_of_string word) cs with
  | Some rest => Some (v, rest)
  | None => None
  end.

Fixpoint parse_value (fuel : nat) (cs : list Ascii.ascii) {struct fuel}
    : option (value * list Ascii.ascii) :=
  match fuel with
  | O => None
  | S fuel =>
      match skip_ws cs with
      | [] => None
      | c :: rest =>
          if is_char c 123 then
            match skip_ws rest with
            | c' :: rest' =>
                if is_char c' 125 then Some (VObj [], rest')
                else parse_members fuel (c' :: rest') []
            | [] => None
            end
          else if is_char c 91 then
            match skip_ws rest with
            | c' :: rest' =>
                if is_char c' 93 then Some (VArr [], rest')
                else parse_elements fuel (c' :: rest') []
            | [] => None
            end
          else if is_char c 34 then
            match parse_chars rest EmptyString with
            | Some (s, rest') => Some (VStr s, rest')
            | None => None
            end
          else if is_char c 45 then
            match rest with
            | d :: _ =>
                if is_digit d
                then let '(n, rest') := parse_digits rest 0 in Some (VNum (- n), rest')
                else None
            | [] => None
            end
          else if is_digit c then
            let '(n, rest') := parse_digits (c :: rest) 0 in Some (VNum n, rest')
          else if is_char c 116 then literal "true" (VBool true) (c :: rest)
          else if is_char c 102 then literal "false" (VBool false) (c :: rest)
          else if is_char c 110 then literal "null" VNull (c :: rest)
          else None
      end
  end
with parse_elements (fuel : nat) (cs : list Ascii.ascii) (acc : list value) {struct fuel}
    : option (value * list Ascii.ascii) :=
  match fuel with
  | O => None
  | S fuel =>
      match parse_value fuel cs with
      | Some (v, rest) =>
          match skip_ws rest with
          | c :: rest' =>
              if is_char c 44 then parse_elements fuel rest' (acc ++ [v])
              else if is_char c 93 then Some (VArr (acc ++ [v]), rest')
              else None
          | [] => None
          end
      | None => None
      end
  end
with parse_members (fuel : nat) (cs : list Ascii.ascii) (acc : list (string * value))
    {struct fuel} : option (value * list Ascii.ascii) :=
  match fuel with
  | O => None
  | S fuel =>
      match skip_ws cs with
      | q :: rest =>
          if is_char q 34 then
            match parse_chars rest EmptyString with
            | Some (k, rest1) =>
                match skip_ws rest1 with
                | colon :: rest2 =>
                    if is_char colon 58 then
                      match parse_value fuel rest2 with
                      | Some (v, rest3) =>
                          match skip_ws rest3 with
                          | c :: rest4 =>
                              if is_char c 44 then parse_members fuel rest4 (set_prop k v acc)
                              else if is_char c 125 then Some (VObj (set_prop k v acc), rest4)
                              else None
                          | [] => None
                          end
                      | None => None
                      end
                    else None
                | [] => None
                end
            | None => None
            end
          else None
      | [] => None
      end
  end.

Definition JSON_parse (text : string) : Exn + value :=
  let cs := String.list_ascii_of_string text in
  match parse_value (S (length cs)) cs with
  | Some (v, rest) =>
      match skip_ws rest with
      | [] => inr v
      | _ :: _ => inl SyntaxError
      end
  | None => inl SyntaxError
  end.

(** The image decoder accepts the data URLs of images and reports one fixed
    bitmap size; the encoder names the canvas size and what was drawn. *)
Definition Image_load (src : string) : option (Z * Z) :=
  if String.prefix "data:image/" src then Some (1200, 900)%Z else None.

Definition drawn (op : DrawOp) : string :=
  match op with
  | FillRect fillStyle _ _ _ _ => fillStyle
  | DrawImage src _ _ _ _ => src
  end.

Definition toDataURL (c : Canvas) (mime : string) (quality : Quality) : string :=
  "data:" +:+ mime +:+ ";base64," +:+ pretty (cv_width c) +:+ "x" +:+ pretty (cv_height c)
  +:+ foldl (fun acc op => acc +:+ "/" +:+ drawn op) EmptyString (cv_ops c).

End Sample.

(** ** Runs of the application shell

    A run starts with the first render and continues with state changes and
    with the clock advancing; these are the component states the properties
    below range over. *)
Module Timeline.

(** One timer is pending: the one armed by the last effect run, whose
    cleanup holds its id, closing over the current state and due at [d]. *)
Definition pending (d : Z) (e : App.Env) : Prop :=
  ∃ id, App.timers e = [App.mkTimer id d (App.state e)]
        ∧ App.cleanup e = Some id ∧ (App.now e ≤ d)%Z.

(* no timer escapes the cleanup of the last effect run *)
Definition owned (e : App.Env) : Prop := App.timers e = [] ∨ ∃ d, pending d e.

(* what a trace of the shell may hold *)
Definition shell_event (stamped : Z * Event) : Prop :=
  (∃ text ok, stamped.2 = EvSetItem App.STORAGE_KEY text ok)
  ∨ stamped.2 = EvAlert App.QUOTA_ALERT.

Definition is_write (stamped : Z * Event) : bool :=
  match stamped.2 with
  | EvSetItem _ _ true => true
  | _ => false
  end.

Section Host.
Variable JSON_stringify : value → string.
Variable setItem : gmap string string → string → string → Exn + gmap string string.

Inductive reachable : App.Env → Prop :=
| reach_mount (t0 : Z) (initial : AppState) (ls : gmap string string) :
    reachable (App.mount t0 initial ls)
| reach_setState (updater : AppState → AppState) (e : App.Env) :
    reachable e → reachable (App.setState updater e)
| reach_advance (t : Z) (e : App.Env) :
    reachable e → reachable (App.advance_to JSON_stringify setItem t e).

(* state changes, each at its time, the clock advancing in between *)
Fixpoint run_changes (changes : list (Z * (AppState → AppState))) (e : App.Env) : App.Env :=
  match changes with
  | [] => e
  | (t, updater) :: rest =>
      run_changes rest (App.setState updater (App.advance_to JSON_stringify setItem t e))
  end.

(* every change arrives less than 500 ms after the one before, from time t0 on *)
Fixpoint burst (t0 : Z) (changes : list (Z * (AppState → AppState))) : Prop :=
  match changes with
  | [] => True
  | (t, _) :: rest => (t0 ≤ t < t0 + 500)%Z ∧ burst t rest
  end.

(* the time of the last change *)
Fixpoint last_time (t0 : Z) (changes : list (Z * (AppState → AppState))) : Z :=
  match changes with
  | [] => t0
  | (t, _) :: rest => last_time t rest
  end.

(* the state after all the changes *)
Definition final_state (s : AppState) (changes : list (Z * (AppState → AppState))) : AppState :=
  foldl (fun acc change => change.2 acc) s changes.

(* what the write callback serializes for a state *)
Definition payload (s : AppState) : string := JSON_stringify (AppState_to_value s).

(* the effects of one firing of the write callback at time t *)
Definition write_events (t : Z) (ls : gmap string string) (s : AppState) : list (Z * Event) :=
  match setItem ls App.STORAGE_KEY (payload s) with
  | inr _ => [(t, EvSetItem App.STORAGE_KEY (payload s) true)]
  | inl err =>
      (t, EvSetItem App.STORAGE_KEY (payload s) false) ::
      (if exn_is_Error err && bool_decide (exn_name err = "QuotaExceededError")
       then [(t, EvAlert App.QUOTA_ALERT)] else [])
  end.

(* the storage after one firing of the write callback *)
Definition written (ls : gmap string string) (s : AppState) : gmap string string :=
  match setItem ls App.STORAGE_KEY (payload s) with
  | inr ls' => ls'
  | inl _ => ls
  end.

End Host.

End Timeline.

(** ** Sample inputs

    A PNG the sample decoder accepts, a second one, a text file it rejects,
    a PNG of 11 MiB, a backup document with both collections, and a fresh
    project form. *)
Definition good_png : File :=
  mkFile "a.png" 2048 (Some "data:image/png;base64,iVBORw0KGgo=") None.

Definition second_png : File :=
  mkFile "c.png" 4096 (Some "data:image/png;base64,iVBORw0KGgp=") None.

Definition not_an_image : File :=
  mkFile "b.txt" 12 (Some "data:text/plain;base64,aGVsbG8=") None.

Definition huge_png : File :=
  mkFile "big.png" (11 * 1024 * 1024) (Some "data:image/png;base64,iVBORw0KGgq=") None.

Definition backup_doc : value :=
  VObj [("projects", VArr []); ("archiveItems", VArr [])].

(* a stored document with a projects array and a title, nothing else *)
Definition partial_doc : list (string * value) :=
  [("projects", VArr []); ("siteTitle", VStr "X")].

Definition backup_file : File :=
  mkFile "backup.json" 33 None (Some (Sample.JSON_stringify backup_doc)).

Definition empty_form : ProjectForm :=
  mkProjectForm (mkPartialProject (Some EmptyString) (Some EmptyString) (Some "BRANDING")
                   (Some EmptyString) (Some "IN_PROGRESS") (Some "2025-01-01")
                   (Some EmptyString) (Some []))
    false (Some "C:\fakepath\a.png") [].

(** * Properties *)

(** ** The state store *)
Section StoreFacts.

Implicit Types (e : App.Env) (prev : AppState).

Lemma state_persist_effect e : App.state (App.persist_effect e) = App.state e.
Proof. reflexivity. Qed.

Lemma state_run_cleanup e : App.state (App.run_cleanup e) = App.state e.
Proof. unfold App.run_cleanup. by destruct (App.cleanup e). Qed.

Lemma state_setState (updater : AppState → AppState) e :
  App.state (App.setState updater e) = updater (App.state e).
Proof.
  unfold App.setState. by rewrite state_persist_effect, state_run_cleanup.
Qed.

Lemma filter_fresh_project (id : string) (ps : list Project) :
  Forall (fun q => prj_id q ≠ id) ps →
  filter (fun q => prj_id q ≠ id) ps = ps.
Proof.
  induction 1 as [|q ps Hq _ IH]; [done|].
  rewrite filter_cons_True by done. by rewrite IH.
Qed.

Lemma lookup_replace_map {A} (test : A → bool) (updated : A) (l : list A) (i : nat) (x : A) :
  l !! i = Some x →
  map (fun y => if test y then updated else y) l !! i
  = Some (if test x then updated else x).
Proof. intros Hi. by rewrite list_lookup_fmap, Hi. Qed.

End StoreFacts.

(** C8, as stated, fails: the delete operation asks for confirmation first,
    and when the user declines, the project just added stays in the
    collection. *)
Lemma add_then_delete_declined :
  ¬ (∀ (window_confirm : string → bool) (e : App.Env) (p : Project),
       Forall (fun q => prj_id q ≠ prj_id p) (projects (App.state e)) →
       projects (App.state (App.deleteProject window_confirm (prj_id p) (App.addProject p e)))
       = projects (App.state e)).
Proof.
  intros H.
  specialize (H (fun _ => false) (App.mount 0 App.defaultState ∅)
                (mkProject "NEW" "T" "BRANDING" "2025-01-01" "d" [] "c" "IN_PROGRESS")).
  assert (Hfresh : Forall (fun q => prj_id q ≠ "NEW") INITIAL_PROJECTS).
  { repeat constructor; simpl; discriminate. }
  specialize (H Hfresh). vm_compute in H. discriminate H.
Qed.

(** C8 (amended): for every state and project [p] whose id no stored project
    carries, adding [p] and then deleting [p.id], the user confirming the
    deletion, yields the original [projects]; [addProject] puts [p] first. *)
Theorem add_then_delete_confirmed
    (window_confirm : string → bool) (e : App.Env) (p : Project) :
  Forall (fun q => prj_id q ≠ prj_id p) (projects (App.state e)) →
  window_confirm (App.deleteProject_prompt (prj_id p)) = true →
  projects (App.state (App.addProject p e)) = p :: projects (App.state e)
  ∧ projects (App.state (App.deleteProject window_confirm (prj_id p) (App.addProject p e)))
    = projects (App.state e).
Proof.
  intros Hfresh Hyes. split.
  - unfold App.addProject. by rewrite state_setState.
  - unfold App.deleteProject, App.addProject. rewrite Hyes.
    rewrite !state_setState. simpl.
    rewrite filter_cons_False by (intros Hne; by apply Hne).
    by apply filter_fresh_project.
Qed.

Lemma add_then_delete_confirmed_witness :
  projects (App.state
    (App.deleteProject (fun _ => true) "NEW"
       (App.addProject (mkProject "NEW" "T" "BRANDING" "2025-01-01" "d" [] "c" "IN_PROGRESS")
          (App.mount 0 App.defaultState ∅))))
  = INITIAL_PROJECTS.
Proof.
  apply (add_then_delete_confirmed (fun _ => true) (App.mount 0 App.defaultState ∅)
           (mkProject "NEW" "T" "BRANDING" "2025-01-01" "d" [] "c" "IN_PROGRESS")).
  - repeat constructor; simpl; discriminate.
  - reflexivity.
Defined.

(** C9: [updateProject] replaces every element of [projects] whose id
    matches by the updated value, however many carry that id, and leaves the
    others in place; [updateArchiveItem] does the same on [archiveItems]. *)
Theorem update_overwrites_all_matches
    (id : string) (updated : Project) (updatedItem : ArchiveItem) (e : App.Env) :
  (∀ i p, projects (App.state e) !! i = Some p →
     projects (App.state (App.updateProject id updated e)) !! i
     = Some (if bool_decide (prj_id p = id) then updated else p))
  ∧ length (projects (App.state (App.updateProject id updated e)))
    = length (projects (App.state e))
  ∧ (∀ i a, archiveItems (App.state e) !! i = Some a →
     archiveItems (App.state (App.updateArchiveItem id updatedItem e)) !! i
     = Some (if bool_decide (arc_id a = id) then updatedItem else a))
  ∧ length (archiveItems (App.state (App.updateArchiveItem id updatedItem e)))
    = length (archiveItems (App.state e)).
Proof.
  unfold App.updateProject, App.updateArchiveItem. rewrite !state_setState. simpl.
  repeat split.
  - intros i p Hi. by apply (lookup_replace_map (fun y => bool_decide (prj_id y = id))).
  - by rewrite length_map.
  - intros i a Hi. by apply (lookup_replace_map (fun y => bool_decide (arc_id y = id))).
  - by rewrite length_map.
Qed.

(* two stored projects with the same id are both overwritten *)
Example update_duplicate_ids :
  let p := mkProject "DUP" "first" "BRANDING" "2025-01-01" "d" [] "c" "IN_PROGRESS" in
  let q := mkProject "DUP" "second" "SPACE" "2025-01-02" "d" [] "c" "COMPLETED" in
  let r := mkProject "OTHER" "third" "SPACE" "2025-01-03" "d" [] "c" "COMPLETED" in
  let u := mkProject "DUP" "updated" "SPACE" "2025-02-01" "d" [] "c" "ARCHIVED" in
  projects (App.state
    (App.updateProject "DUP" u (App.mount 0 (mkAppState [p; r; q] [] [] "t" "g") ∅)))
  = [u; r; u].
Proof. reflexivity. Qed.

(** C10: [deleteProject] and [deleteArchiveItem] ask for confirmation
    first; declined, the component is left exactly as it was (no state
    change, no timer armed); confirmed, the filtering updater is applied. *)
Theorem delete_gated_by_confirmation
    (window_confirm : string → bool) (id : string) (e : App.Env) :
  (window_confirm (App.deleteProject_prompt id) = false →
     App.deleteProject window_confirm id e = e)
  ∧ (window_confirm App.deleteArchiveItem_prompt = false →
     App.deleteArchiveItem window_confirm id e = e)
  ∧ (window_confirm (App.deleteProject_prompt id) = true →
     App.state (App.deleteProject window_confirm id e)
     = App.Updater.deleteProject id (App.state e))
  ∧ (window_confirm App.deleteArchiveItem_prompt = true →
     App.state (App.deleteArchiveItem window_confirm id e)
     = App.Updater.deleteArchiveItem id (App.state e)).
Proof.
  unfold App.deleteProject, App.deleteArchiveItem.
  repeat split; intros ->; try done; by rewrite state_setState.
Qed.

Lemma delete_gated_by_confirmation_witness :
  App.deleteProject (fun _ => false) "ODM-PRJ-2004-001" (App.mount 0 App.defaultState ∅)
  = App.mount 0 App.defaultState ∅
  ∧ App.deleteArchiveItem (fun _ => false) "1" (App.mount 0 App.defaultState ∅)
    = App.mount 0 App.defaultState ∅
  ∧ projects (App.state
      (App.deleteProject (fun _ => true) "ODM-PRJ-2004-001" (App.mount 0 App.defaultState ∅)))
    = drop 1 INITIAL_PROJECTS
  ∧ archiveItems (App.state
      (App.deleteArchiveItem (fun _ => true) "1" (App.mount 0 App.defaultState ∅)))
    = drop 1 INITIAL_ARCHIVE.
Proof.
  pose proof (delete_gated_by_confirmation (fun _ => false) "ODM-PRJ-2004-001"
                (App.mount 0 App.defaultState ∅)) as (Hp & _ & _ & _).
  pose proof (delete_gated_by_confirmation (fun _ => false) "1"
                (App.mount 0 App.defaultState ∅)) as (_ & Ha & _ & _).
  pose proof (delete_gated_by_confirmation (fun _ => true) "ODM-PRJ-2004-001"
                (App.mount 0 App.defaultState ∅)) as (_ & _ & Hp' & _).
  pose proof (delete_gated_by_confirmation (fun _ => true) "1"
                (App.mount 0 App.defaultState ∅)) as (_ & _ & _ & Ha').
  split; [exact (Hp eq_refl)|]. split; [exact (Ha eq_refl)|].
  split; [rewrite (Hp' eq_refl)|rewrite (Ha' eq_refl)]; reflexivity.
Defined.

(** ** The persistence synchronizer *)
Section SyncFacts.
Variable JSON_stringify : value → string.
Variable setItem : gmap string string → string → string → Exn + gmap string string.

#[local] Abbreviation advance_to := (App.advance_to JSON_stringify setItem).
#[local] Abbreviation reachable := (Timeline.reachable JSON_stringify setItem).
#[local] Abbreviation run_changes := (Timeline.run_changes JSON_stringify setItem).
#[local] Abbreviation write_events := (Timeline.write_events JSON_stringify setItem).
#[local] Abbreviation written := (Timeline.written JSON_stringify setItem).
#[local] Abbreviation payload := (Timeline.payload JSON_stringify).

Implicit Types (e : App.Env) (d t T : Z).

Lemma setState_owned (updater : AppState → AppState) e :
  Timeline.owned e →
  App.setState updater e
  = App.mkEnv (App.now e) (updater (App.state e)) true
      [App.mkTimer (App.next_timer_id e) (App.now e + 500) (updater (App.state e))]
      (S (App.next_timer_id e)) (Some (App.next_timer_id e))
      (App.localStorage e) (App.trace e).
Proof.
  destruct e as [n s sy ts nx cl ls tr].
  intros [Hts | (d & id & Hts & Hcl & _)]; simpl in *; subst.
  - unfold App.setState, App.run_cleanup. simpl. by destruct cl.
  - unfold App.setState, App.run_cleanup, App.clearTimeout, App.persist_effect. simpl.
    rewrite filter_cons_False by (simpl; intros Hne; by apply Hne). reflexivity.
Qed.

Lemma setState_pending (updater : AppState → AppState) e :
  Timeline.owned e → Timeline.pending (App.now e + 500) (App.setState updater e).
Proof.
  intros Ho. rewrite (setState_owned _ _ Ho). exists (App.next_timer_id e).
  simpl. repeat split. lia.
Qed.

Lemma advance_idle t e :
  App.timers e = [] → advance_to t e = App.set_now (App.now e `max` t) e.
Proof.
  destruct e as [n s sy ts nx cl ls tr]. simpl. intros ->. reflexivity.
Qed.

Lemma advance_wait d t e :
  Timeline.pending d e → (t < d)%Z → advance_to t e = App.set_now (App.now e `max` t) e.
Proof.
  destruct e as [n s sy ts nx cl ls tr]. intros (id & Hts & Hcl & _) Hlt. simpl in *. subst.
  unfold App.advance_to. simpl.
  rewrite (filter_cons_False (fun tm => (App.tm_due tm ≤ t)%Z)) by (simpl; lia).
  rewrite (filter_cons_True (fun tm => ¬ (App.tm_due tm ≤ t)%Z)) by (simpl; lia).
  reflexivity.
Qed.

(** The pending timer fires at its due time: one call of [setItem], the
    alert when it throws a quota error, and nothing is armed again. *)
Lemma advance_fire d T e :
  Timeline.pending d e → (d ≤ T)%Z →
  advance_to T e
  = App.mkEnv T (App.state e) false [] (App.next_timer_id e) (App.cleanup e)
      (written (App.localStorage e) (App.state e))
      (App.trace e ++ write_events d (App.localStorage e) (App.state e)).
Proof.
  destruct e as [n s sy ts nx cl ls tr]. intros (id & Hts & Hcl & Hnow) Hdue.
  simpl in *. subst.
  unfold App.advance_to. simpl.
  rewrite (filter_cons_True (fun tm => (App.tm_due tm ≤ T)%Z)) by (simpl; lia).
  rewrite (filter_cons_False (fun tm => ¬ (App.tm_due tm ≤ T)%Z)) by (simpl; lia).
  unfold App.fire, App.write_callback, Timeline.written, Timeline.write_events,
    Timeline.payload. simpl.
  replace (n `max` d)%Z with d by lia.
  destruct (setItem ls App.STORAGE_KEY _) as [err|ls']; simpl.
  - destruct (exn_is_Error err && bool_decide (exn_name err = "QuotaExceededError")); simpl;
      unfold App.set_now, App.emit; simpl; f_equal; try lia.
    by rewrite <- app_assoc.
  - unfold App.set_now; simpl. f_equal. lia.
Qed.

Lemma reachable_owned e : reachable e → Timeline.owned e.
Proof.
  induction 1 as [t0 initial ls | updater e _ IH | t e _ IH].
  - right. exists (t0 + 500)%Z, 0. simpl. repeat split. lia.
  - right. eexists. by apply setState_pending.
  - destruct IH as [Hidle | (d & Hp)].
    + left. rewrite advance_idle by done. by destruct e.
    + destruct (decide (t < d)%Z) as [Hlt | Hge].
      * right. exists d. rewrite (advance_wait d) by done.
        destruct Hp as (id & Hts & Hcl & Hnow). exists id.
        destruct e; simpl in *. repeat split; [done..|lia].
      * left. rewrite (advance_fire d) by (done || lia). reflexivity.
Qed.

(** During a burst no timer comes due: every change clears the pending
    timer and arms a new one. *)
Lemma run_changes_burst (changes : list (Z * (AppState → AppState))) :
  ∀ e t0,
    Timeline.pending (t0 + 500) e → App.now e = t0 → Timeline.burst t0 changes →
    Timeline.pending (Timeline.last_time t0 changes + 500) (run_changes changes e)
    ∧ App.state (run_changes changes e) = Timeline.final_state (App.state e) changes
    ∧ App.trace (run_changes changes e) = App.trace e
    ∧ App.localStorage (run_changes changes e) = App.localStorage e.
Proof.
  induction changes as [|[t updater] rest IH]; intros e t0 Hp Hnow Hburst; simpl.
  - done.
  - destruct Hburst as [Ht Hrest].
    rewrite (advance_wait (t0 + 500)) by (done || lia).
    assert (Ho : Timeline.owned (App.set_now (App.now e `max` t) e)).
    { right. exists (t0 + 500)%Z. destruct Hp as (id & Hts & Hcl & Hle). exists id.
      destruct e; simpl in *. repeat split; [done..|lia]. }
    pose proof (setState_pending updater _ Ho) as Hp'.
    assert (Hnow' : App.now (App.setState updater (App.set_now (App.now e `max` t) e)) = t).
    { rewrite (setState_owned _ _ Ho). destruct e; simpl in *. lia. }
    replace (App.now (App.set_now (App.now e `max` t) e) + 500)%Z with (t + 500)%Z in Hp'
      by (destruct e; simpl in *; lia).
    destruct (IH _ t Hp' Hnow' Hrest) as (Hq & Hs & Htr & Hls).
    split; [done|]. rewrite Hs, Htr, Hls, (setState_owned _ _ Ho).
    by destruct e.
Qed.

(* one firing is one call of setItem, whatever its outcome *)
Lemma write_events_attempt t (ls : gmap string string) (s : AppState) :
  ∃ ok rest,
    write_events t ls s = (t, EvSetItem App.STORAGE_KEY (payload s) ok) :: rest
    ∧ filter (fun stamped => Timeline.is_write stamped = true) rest = [].
Proof.
  unfold Timeline.write_events.
  destruct (setItem ls App.STORAGE_KEY _) as [err|ls'].
  - exists false. eexists. split; [reflexivity|].
    by destruct (exn_is_Error err && bool_decide (exn_name err = "QuotaExceededError")).
  - by exists true, [].
Qed.

Lemma burst_then_quiet e (first : AppState → AppState)
    (changes : list (Z * (AppState → AppState))) T :
  reachable e →
  Timeline.burst (App.now e) changes →
  (Timeline.last_time (App.now e) changes + 500 ≤ T)%Z →
  advance_to T (run_changes changes (App.setState first e))
  = App.mkEnv T (Timeline.final_state (first (App.state e)) changes) false []
      (App.next_timer_id (run_changes changes (App.setState first e)))
      (App.cleanup (run_changes changes (App.setState first e)))
      (written (App.localStorage e) (Timeline.final_state (first (App.state e)) changes))
      (App.trace e ++
       write_events (Timeline.last_time (App.now e) changes + 500) (App.localStorage e)
         (Timeline.final_state (first (App.state e)) changes)).
Proof.
  intros Hreach Hburst HT.
  pose proof (reachable_owned _ Hreach) as Ho.
  pose proof (setState_pending first _ Ho) as Hp.
  assert (Hnow : App.now (App.setState first e) = App.now e)
    by (by rewrite (setState_owned _ _ Ho)).
  destruct (run_changes_burst changes _ (App.now e) Hp Hnow Hburst) as (Hq & Hs & Htr & Hls).
  rewrite (advance_fire _ T _ Hq HT), Hs, Htr, Hls, (setState_owned _ _ Ho). reflexivity.
Qed.

(** C1: a burst of state changes, each less than 500 ms after the one
    before (the first at the current time), followed by quiet until [T] at
    least 500 ms after the last one, makes the component call [setItem]
    exactly once, 500 ms after the last change, with the state as of the last
    change: every change of the burst clears the pending timer and arms a new
    one, so no intermediate state is written.  When [setItem] succeeds the
    trace gains exactly that one write and the storage is its result. *)
Theorem debounce_single_write e (first : AppState → AppState)
    (changes : list (Z * (AppState → AppState))) T :
  reachable e →
  Timeline.burst (App.now e) changes →
  (Timeline.last_time (App.now e) changes + 500 ≤ T)%Z →
  let final := Timeline.final_state (first (App.state e)) changes in
  let due := (Timeline.last_time (App.now e) changes + 500)%Z in
  let e' := advance_to T (run_changes changes (App.setState first e)) in
  App.state e' = final
  ∧ App.timers e' = []
  ∧ App.isSyncing e' = false
  ∧ App.trace e' = App.trace e ++ write_events due (App.localStorage e) final
  ∧ (∀ ls', setItem (App.localStorage e) App.STORAGE_KEY (payload final) = inr ls' →
       App.trace e' = App.trace e ++ [(due, EvSetItem App.STORAGE_KEY (payload final) true)]
       ∧ App.localStorage e' = ls').
Proof.
  intros Hreach Hburst HT final due e'. subst e'.
  rewrite (burst_then_quiet _ _ _ _ Hreach Hburst HT). simpl.
  refine (conj eq_refl (conj eq_refl (conj eq_refl (conj eq_refl _)))).
  intros ls' Hok.
  unfold Timeline.write_events, Timeline.written, Timeline.payload in *.
  fold final. by rewrite Hok.
Qed.

(** C2: when the debounced write fails with a quota error, the write is
    logged as failed and the alert is raised; the state in memory is the one
    the user produced, the storage is untouched, and no timer is left, so
    nothing is retried or evicted as time passes; the next state change arms
    the timer again and, 500 ms later, [setItem] is called with the new
    state. *)
Theorem quota_exceeded_reported_and_retained e (updater next : AppState → AppState) T T2 err :
  reachable e →
  (App.now e + 500 ≤ T)%Z → (T + 500 ≤ T2)%Z →
  setItem (App.localStorage e) App.STORAGE_KEY (payload (updater (App.state e))) = inl err →
  exn_is_Error err = true → exn_name err = "QuotaExceededError" →
  let e1 := advance_to T (App.setState updater e) in
  let e2 := advance_to T2 (App.setState next e1) in
  App.trace e1
  = App.trace e ++
    [((App.now e + 500)%Z, EvSetItem App.STORAGE_KEY (payload (updater (App.state e))) false);
     ((App.now e + 500)%Z, EvAlert App.QUOTA_ALERT)]
  ∧ App.state e1 = updater (App.state e)
  ∧ App.localStorage e1 = App.localStorage e
  ∧ App.timers e1 = []
  ∧ (∀ T', App.trace (advance_to T' e1) = App.trace e1
           ∧ App.state (advance_to T' e1) = App.state e1
           ∧ App.localStorage (advance_to T' e1) = App.localStorage e1)
  ∧ App.state e2 = next (updater (App.state e))
  ∧ App.trace e2
    = App.trace e1 ++ write_events (T + 500) (App.localStorage e) (next (updater (App.state e)))
  ∧ App.localStorage e2 = written (App.localStorage e) (next (updater (App.state e))).
Proof.
  intros Hreach HT HT2 Hfail Hiserr Hname e1 e2.
  assert (He1 : e1 = App.mkEnv T (updater (App.state e)) false []
                  (App.next_timer_id (App.setState updater e))
                  (App.cleanup (App.setState updater e))
                  (App.localStorage e)
                  (App.trace e ++
                   [((App.now e + 500)%Z,
                     EvSetItem App.STORAGE_KEY (payload (updater (App.state e))) false);
                    ((App.now e + 500)%Z, EvAlert App.QUOTA_ALERT)])).
  { subst e1.
    pose proof (burst_then_quiet e updater [] T Hreach I HT) as H. simpl in H.
    rewrite H. unfold Timeline.written, Timeline.write_events, Timeline.final_state.
    simpl. unfold Timeline.payload in *. rewrite Hfail, Hiserr, Hname. reflexivity. }
  assert (Hreach1 : reachable e1).
  { subst e1. by apply Timeline.reach_advance, Timeline.reach_setState. }
  assert (He2 : e2 = advance_to T2 (run_changes [] (App.setState next e1))) by reflexivity.
  rewrite (burst_then_quiet e1 next [] T2 Hreach1) in He2
    by (rewrite He1; simpl; done || lia).
  rewrite He2. clear He2 e2. rewrite !He1. simpl.
  repeat split; intros; by rewrite advance_idle.
Qed.

End SyncFacts.

(** The scenario of the debounce property: changes at 0, 100 and 200 ms,
    one write at 700 ms carrying the state as of 200 ms. *)
Lemma debounce_single_write_witness :
  let s3 := App.Updater.updateSettings "ABC" "x" App.defaultState in
  let e' :=
    App.advance_to Sample.JSON_stringify (Sample.setItem 100000) 700
      (Timeline.run_changes Sample.JSON_stringify (Sample.setItem 100000)
         [(100%Z, App.Updater.updateSettings "AB" "x");
          (200%Z, App.Updater.updateSettings "ABC" "x")]
         (App.setState (App.Updater.updateSettings "A" "x")
            (App.mount 0 App.defaultState ∅))) in
  App.state e' = s3
  ∧ App.trace e'
    = [(700%Z, EvSetItem App.STORAGE_KEY
                 (Sample.JSON_stringify (AppState_to_value s3)) true)]
  ∧ App.localStorage e'
    = {[ App.STORAGE_KEY := Sample.JSON_stringify (AppState_to_value s3) ]}.
Proof.
  intros s3 e'.
  assert (Hburst : Timeline.burst (App.now (App.mount 0 App.defaultState ∅))
            [(100%Z, App.Updater.updateSettings "AB" "x");
             (200%Z, App.Updater.updateSettings "ABC" "x")])
    by (simpl; lia).
  destruct (debounce_single_write Sample.JSON_stringify (Sample.setItem 100000)
              (App.mount 0 App.defaultState ∅) (App.Updater.updateSettings "A" "x")
              [(100%Z, App.Updater.updateSettings "AB" "x");
               (200%Z, App.Updater.updateSettings "ABC" "x")] 700
              (Timeline.reach_mount _ _ 0 App.defaultState ∅) Hburst ltac:(simpl; lia))
    as (Hstate & _ & _ & _ & Hok).
  assert (Hfits : Sample.setItem 100000 ∅ App.STORAGE_KEY
                    (Sample.JSON_stringify (AppState_to_value s3))
                  = inr {[ App.STORAGE_KEY := Sample.JSON_stringify (AppState_to_value s3) ]})
    by (vm_compute; reflexivity).
  destruct (Hok _ Hfits) as [Htrace Hls].
  split; [exact Hstate|]. split; [exact Htrace|exact Hls].
Defined.

(** A storage of 200 characters refuses the default dataset with a changed
    title; after the next change, which empties the collections, the write is
    attempted again and goes through. *)
Lemma quota_exceeded_witness :
  let emptied (_ : AppState) := mkAppState [] [] [] "T" "x" in
  let e1 :=
    App.advance_to Sample.JSON_stringify (Sample.setItem 200) 500
      (App.setState (App.Updater.updateSettings "T" "x") (App.mount 0 App.defaultState ∅)) in
  let e2 :=
    App.advance_to Sample.JSON_stringify (Sample.setItem 200) 2000
      (App.setState emptied e1) in
  App.trace e1
  = [(500%Z, EvSetItem App.STORAGE_KEY
               (Sample.JSON_stringify
                  (AppState_to_value (App.Updater.updateSettings "T" "x" App.defaultState)))
               false);
     (500%Z, EvAlert App.QUOTA_ALERT)]
  ∧ App.state e1 = App.Updater.updateSettings "T" "x" App.defaultState
  ∧ App.localStorage e1 = ∅
  ∧ App.trace e2
    = App.trace e1 ++
      [(1000%Z, EvSetItem App.STORAGE_KEY
                  (Sample.JSON_stringify (AppState_to_value (mkAppState [] [] [] "T" "x")))
                  true)].
Proof.
  intros emptied e1 e2.
  assert (Hfull : Sample.setItem 200 ∅ App.STORAGE_KEY
                    (Sample.JSON_stringify
                       (AppState_to_value (App.Updater.updateSettings "T" "x" App.defaultState)))
                  = inl QuotaExceededError)
    by (vm_compute; reflexivity).
  destruct (quota_exceeded_reported_and_retained Sample.JSON_stringify (Sample.setItem 200)
              (App.mount 0 App.defaultState ∅) (App.Updater.updateSettings "T" "x") emptied
              500 2000 QuotaExceededError
              (Timeline.reach_mount _ _ 0 App.defaultState ∅)
              ltac:(simpl; lia) ltac:(lia) Hfull eq_refl eq_refl)
    as (Htr1 & Hs1 & Hls1 & _ & _ & _ & Htr2 & _).
  split; [exact Htr1|]. split; [exact Hs1|]. split; [exact Hls1|].
  etrans; [exact Htr2|]. f_equal.
Defined.

(** ** The state loader *)
Section LoaderFacts.
Variable JSON_parse : string → Exn + value.
Variable getItem : gmap string string → string → Exn + option string.

#[local] Abbreviation load := (App.load JSON_parse getItem).

(* only an object carries a projects array *)
Lemma projects_array_object (parsed : value) (items : list value) :
  get_prop parsed "projects" = inr (Some (VArr items)) →
  ∃ fields, parsed = VObj fields ∧ assoc "projects" fields = Some (VArr items)
            ∧ truthy parsed = true.
Proof.
  destruct parsed as [| | | | |fields]; simpl; try discriminate.
  intros [= H]. by exists fields.
Qed.

(** The loader has two outcomes: the default dataset, or the stored object
    merged over it, the latter only for a stored text that parses to an
    object whose [projects] is an array. *)
Lemma load_cases (ls : gmap string string) :
  load ls = AppState_to_value App.defaultState
  ∨ ∃ saved fields items,
      getItem ls App.STORAGE_KEY = inr (Some saved)
      ∧ JSON_parse saved = inr (VObj fields)
      ∧ assoc "projects" fields = Some (VArr items)
      ∧ load ls = spread (AppState_fields App.defaultState) (VObj fields).
Proof.
  unfold App.load, App.load_try, bind_exn.
  destruct (getItem ls App.STORAGE_KEY) as [err|[saved|]]; [by left| |by left].
  case_bool_decide; [by left|].
  destruct (JSON_parse saved) as [err|parsed] eqn:Hparse; [by left|].
  destruct (truthy parsed); [|by left].
  destruct (get_prop parsed "projects") as [err|prj] eqn:Hprj; [by left|].
  destruct prj as [[| | | |items|]|]; simpl; try by left.
  destruct (projects_array_object _ _ Hprj) as (fields & -> & Hassoc & _).
  right. by exists saved, fields, items.
Qed.

(** C3: the loader returns the built-in default dataset when nothing is
    stored under the key (or the stored text is empty, or reading the storage
    throws), when the stored text does not parse, and when the parsed value
    has no [projects] array; being a total function whose [try] block catches
    every exception, it returns normally in each of these cases. *)
Theorem load_falls_back_to_default (ls : gmap string string) :
  (getItem ls App.STORAGE_KEY = inr None
   ∨ (∃ err, getItem ls App.STORAGE_KEY = inl err)
   ∨ ∃ saved, getItem ls App.STORAGE_KEY = inr (Some saved)
       ∧ (saved = EmptyString
          ∨ (∃ err, JSON_parse saved = inl err)
          ∨ ∃ parsed, JSON_parse saved = inr parsed
              ∧ ∀ items, get_prop parsed "projects" ≠ inr (Some (VArr items)))) →
  load ls = AppState_to_value App.defaultState.
Proof.
  unfold App.load, App.load_try, bind_exn.
  intros [-> | [[err ->] | (saved & -> & Hsaved)]]; [done..|].
  case_bool_decide as Hempty; [done|].
  destruct Hsaved as [-> | [[err ->] | (parsed & -> & Hshape)]]; [done..|].
  destruct (truthy parsed); [|done].
  destruct (get_prop parsed "projects") as [err|prj]; [done|].
  destruct prj as [[| | | |items|]|]; simpl; try done.
  by destruct (Hshape items).
Qed.

End LoaderFacts.

(** A stored text cut off after 40 characters does not parse; the loader
    answers with the default dataset. *)
Lemma load_falls_back_witness :
  App.load Sample.JSON_parse Sample.getItem
    {[ App.STORAGE_KEY :=
         String.substring 0 40 (Sample.JSON_stringify (AppState_to_value App.defaultState)) ]}
  = AppState_to_value App.defaultState.
Proof.
  apply load_falls_back_to_default. right. right.
  exists (String.substring 0 40 (Sample.JSON_stringify (AppState_to_value App.defaultState))).
  split; [reflexivity|]. right. left. exists SyntaxError. vm_compute. reflexivity.
Defined.

(** ** Image codec and ingestion queue of part_001 *)
Section IngestFacts.
Variable Image_load : string → option (Z * Z).
Variable getContext_2d : bool.
Variable toDataURL : Canvas → string → Quality → string.

#[local] Abbreviation compressImage := (AdminView.compressImage Image_load getContext_2d toDataURL).
#[local] Abbreviation compressImage_default :=
  (AdminView.compressImage_default Image_load getContext_2d toDataURL).
#[local] Abbreviation ingest_loop := (AdminView.ingest_loop Image_load getContext_2d toDataURL).
#[local] Abbreviation handleFileChange :=
  (AdminView.handleFileChange Image_load getContext_2d toDataURL).
#[local] Abbreviation contribution := (AdminView.contribution Image_load getContext_2d toDataURL).

(** With the [onerror] handler the promise settles for every input, and a
    failed decode settles it with the empty string. *)
Lemma compressImage_settles (base64Str : string) (maxWidth : Z) (quality : Quality) :
  ∃ encoded, compressImage base64Str maxWidth quality = Resolved encoded.
Proof.
  unfold AdminView.compressImage. destruct (Image_load base64Str) as [[w h]|]; eauto.
Qed.

Lemma compressImage_decode_failure (base64Str : string) (maxWidth : Z) (quality : Quality) :
  Image_load base64Str = None →
  compressImage base64Str maxWidth quality = Resolved EmptyString.
Proof. unfold AdminView.compressImage. by intros ->. Qed.

(* the scaled width never exceeds the bound; a narrow image keeps its size *)
Lemma onload_canvas_width (img_width img_height maxWidth : Z) :
  let '(width, height) :=
    if (img_width >? maxWidth)%Z
    then (maxWidth, round_div (img_height * maxWidth) img_width)
    else (img_width, img_height) in
  (width ≤ maxWidth)%Z ∧ ((img_width ≤ maxWidth)%Z → (width, height) = (img_width, img_height)).
Proof.
  destruct (img_width >? maxWidth)%Z eqn:Hgt; split; try lia; intros; try done; lia.
Qed.

(** The loop adds, file by file and in the order of the files, what each
    file contributes, and causes each file's effects in the same order. *)
Lemma ingest_loop_spec (files : list File) :
  ∀ (newUrls : list string) (tr : list Event),
    ingest_loop files newUrls tr
    = (Resolved (newUrls ++ omap contribution files),
       tr ++ concat (map AdminView.file_events files)).
Proof.
  induction files as [|file rest IH]; intros newUrls tr; simpl.
  - by rewrite !app_nil_r.
  - unfold AdminView.contribution, AdminView.file_events, AdminView.MAX_FILE_SIZE.
    destruct (file_size file >? 10 * 1024 * 1024)%Z.
    + rewrite IH. by rewrite <- app_assoc.
    + destruct (compressImage_settles (src_of (readAsDataURL file)) 600
                  (QArith_base.Qmake 4 10)) as [encoded Henc].
      unfold AdminView.compressImage_default. rewrite Henc.
      rewrite IH. destruct (nonempty encoded); simpl; by rewrite <- !app_assoc.
Qed.

Lemma handleFileChange_spec (files : list File) (c : ProjectForm) :
  handleFileChange (Some files) c
  = mkProjectForm
      (pp_with_imageUrls (formData c)
         (default [] (pp_imageUrls (formData c)) ++ omap contribution files))
      false
      (match fileInput c with Some _ => Some EmptyString | None => None end)
      (form_trace c ++ concat (map AdminView.file_events files)).
Proof.
  unfold AdminView.handleFileChange. by rewrite ingest_loop_spec.
Qed.

(** X14: Decode-failure sentinel in part_001: a file whose decode fails is
    encoded to the empty string and contributes nothing to the batch. *)
Lemma decode_failure_dropped (file : File) :
  Image_load (src_of (readAsDataURL file)) = None →
  compressImage_default (src_of (readAsDataURL file)) = Resolved EmptyString
  ∧ contribution file = None.
Proof.
  intros Hfail. unfold AdminView.contribution, AdminView.compressImage_default.
  rewrite (compressImage_decode_failure _ _ _ Hfail).
  split; [done|]. by destruct (file_size file >? _)%Z.
Qed.

(** X15: Size ceiling in part_001: a file above 10 MiB causes the warning and
    nothing else (it is neither read nor decoded), and the batch is the one
    of the other files. *)
Lemma oversized_file_skipped (before after : list File) (file : File) (c : ProjectForm) :
  (file_size file > 10 * 1024 * 1024)%Z →
  AdminView.file_events file = [EvAlert "SKIP: FILE_TOO_LARGE (>10MB)"]
  ∧ pp_imageUrls (formData (handleFileChange (Some (before ++ file :: after)) c))
    = Some (default [] (pp_imageUrls (formData c))
            ++ omap contribution before ++ omap contribution after)
  ∧ form_trace (handleFileChange (Some (before ++ file :: after)) c)
    = form_trace c ++ concat (map AdminView.file_events before)
      ++ [EvAlert "SKIP: FILE_TOO_LARGE (>10MB)"]
      ++ concat (map AdminView.file_events after).
Proof.
  intros Hbig.
  assert (Hgt : (file_size file >? AdminView.MAX_FILE_SIZE)%Z = true)
    by (unfold AdminView.MAX_FILE_SIZE; lia).
  assert (Hev : AdminView.file_events file = [EvAlert "SKIP: FILE_TOO_LARGE (>10MB)"])
    by (unfold AdminView.file_events; by rewrite Hgt).
  assert (Hc : contribution file = None)
    by (unfold AdminView.contribution; by rewrite Hgt).
  rewrite handleFileChange_spec. simpl.
  rewrite omap_app, map_app, concat_app. simpl. rewrite Hc, Hev. done.
Qed.

(** X16: Order preservation in part_001: the encoded strings of a batch are the
    contributions of the files, in the order of the files; splitting the
    input anywhere splits the output at the matching place. *)
Lemma ingestion_preserves_order (before after : list File) (c : ProjectForm) :
  pp_imageUrls (formData (handleFileChange (Some (before ++ after)) c))
  = Some (default [] (pp_imageUrls (formData c))
          ++ omap contribution before ++ omap contribution after)
  ∧ isProcessing (handleFileChange (Some (before ++ after)) c) = false.
Proof.
  rewrite handleFileChange_spec. simpl. by rewrite omap_app.
Qed.

End IngestFacts.

(** ** Import in part_001 *)
Section ImportFacts.
Variable JSON_parse : string → Exn + value.
Variable JSON_stringify : value → string.
Variable setItem : gmap string string → string → string → Exn + gmap string string.
Variable window_confirm : string → bool.

(** X19: In part_001 an accepted and confirmed document is written, as parsed and
    serialized again, under the key the application shell persists to and
    loads from, and the page is then reloaded; no mutator of the shell is
    involved. *)
Lemma handleImport_writes_shared_slot
    (file : File) (others : list File) (text : string) (json : value) (prj : value)
    (w : Browser) (ls' : gmap string string) :
  file_text file = Some text →
  JSON_parse text = inr json →
  get_prop json "projects" = inr (Some prj) → truthy prj = true →
  window_confirm "OVERWRITE CURRENT DATABASE?" = true →
  setItem (bw_localStorage w) App.STORAGE_KEY (JSON_stringify json) = inr ls' →
  AdminView.IMPORT_KEY = App.STORAGE_KEY
  ∧ AdminView.handleImport JSON_parse JSON_stringify setItem window_confirm
      (Some (file :: others)) w
    = mkBrowser ls'
        (bw_trace w ++ [EvSetItem App.STORAGE_KEY (JSON_stringify json) true; EvReload]).
Proof.
  intros Htext Hparse Hprj Htruthy Hyes Hset. split; [reflexivity|].
  unfold AdminView.handleImport. simpl. rewrite Htext, Hparse, Hprj. simpl.
  rewrite Htruthy, Hyes. change AdminView.IMPORT_KEY with App.STORAGE_KEY.
  rewrite Hset. unfold bw_emit. simpl. by rewrite <- app_assoc.
Qed.

End ImportFacts.


(** ** The copy in src/components/AdminView.tsx *)

(* without an onerror handler a failed decode leaves the promise unsettled *)
Lemma components_compressImage_pending
    (Image_load : string → option (Z * Z)) (getContext_2d : bool)
    (toDataURL : Canvas → string → Quality → string)
    (base64Str : string) (maxWidth : Z) (quality : Quality) :
  Image_load base64Str = None →
  ComponentsAdminView.compressImage Image_load getContext_2d toDataURL
    base64Str maxWidth quality = Pending.
Proof. unfold ComponentsAdminView.compressImage. by intros ->. Qed.

(** C4 on src/components/AdminView.tsx: [compressImage] registers no
    [onerror] handler; for a file the decoder rejects the promise never
    settles, and the form that awaits it stays in its processing state with
    nothing added.  The copy in part_001 resolves the same input with the
    empty string and finishes the batch. *)
Theorem components_compressImage_never_settles :
  ComponentsAdminView.compressImage_default Sample.Image_load true Sample.toDataURL
    (src_of (readAsDataURL not_an_image)) = Pending
  ∧ ComponentsAdminView.handleFileChange Sample.Image_load true Sample.toDataURL
      (Some [not_an_image]) empty_form
    = mkProjectForm (formData empty_form) true (fileInput empty_form)
        [EvReadAsDataURL "b.txt"; EvDecode "data:text/plain;base64,aGVsbG8="]
  ∧ AdminView.compressImage_default Sample.Image_load true Sample.toDataURL
      (src_of (readAsDataURL not_an_image)) = Resolved EmptyString
  ∧ isProcessing (AdminView.handleFileChange Sample.Image_load true Sample.toDataURL
                    (Some [not_an_image]) empty_form) = false.
Proof. repeat split. Qed.

(** C5 on src/components/AdminView.tsx: the import handler writes the
    accepted document under [odemind_archive_v4_prod], not under the key the
    application shell loads from, so after the reload the loader finds
    nothing and returns the default dataset; it also refuses a document that
    has [projects] but no [archiveItems].  The copy in part_001 writes the
    same document under the shell's key. *)
Theorem components_import_misses_shared_slot :
  let imported :=
    ComponentsAdminView.handleImport Sample.JSON_parse Sample.JSON_stringify
      (Sample.setItem 100000) (fun _ => true) (Some [backup_file]) (mkBrowser ∅ []) in
  ComponentsAdminView.IMPORT_KEY ≠ App.STORAGE_KEY
  ∧ bw_trace imported
    = [EvSetItem "odemind_archive_v4_prod" (Sample.JSON_stringify backup_doc) true; EvReload]
  ∧ bw_localStorage imported !! App.STORAGE_KEY = None
  ∧ App.load Sample.JSON_parse Sample.getItem (bw_localStorage imported)
    = AppState_to_value App.defaultState
  ∧ ComponentsAdminView.handleImport Sample.JSON_parse Sample.JSON_stringify
      (Sample.setItem 100000) (fun _ => true)
      (Some [mkFile "p.json" 15 None (Some (Sample.JSON_stringify (VObj [("projects", VArr [])])))])
      (mkBrowser ∅ [])
    = mkBrowser ∅ []
  ∧ bw_localStorage
      (AdminView.handleImport Sample.JSON_parse Sample.JSON_stringify
         (Sample.setItem 100000) (fun _ => true) (Some [backup_file]) (mkBrowser ∅ []))
    !! App.STORAGE_KEY
    = Some (Sample.JSON_stringify backup_doc).
Proof.
  intros imported. subst imported.
  split; [discriminate|]. repeat split; vm_compute; reflexivity.
Qed.

(** C6 on src/components/AdminView.tsx: the loop has no size check; a file
    of 11 MiB is read, decoded and appended, and no warning is raised.  The
    copy in part_001 raises the warning and skips the file. *)
Theorem components_ingest_has_no_size_ceiling :
  (file_size huge_png > 10 * 1024 * 1024)%Z
  ∧ ComponentsAdminView.handleFileChange Sample.Image_load true Sample.toDataURL
      (Some [huge_png]) empty_form
    = mkProjectForm
        (pp_with_imageUrls (formData empty_form)
           ["data:image/jpeg;base64,1000x750/#FFFFFF/data:image/png;base64,iVBORw0KGgq="])
        false (Some EmptyString)
        [EvReadAsDataURL "big.png"; EvDecode "data:image/png;base64,iVBORw0KGgq="]
  ∧ AdminView.handleFileChange Sample.Image_load true Sample.toDataURL
      (Some [huge_png]) empty_form
    = mkProjectForm (pp_with_imageUrls (formData empty_form) [])
        false (Some EmptyString) [EvAlert "SKIP: FILE_TOO_LARGE (>10MB)"].
Proof. split; [reflexivity|]. split; vm_compute; reflexivity. Qed.

(** C7 on src/components/AdminView.tsx: a batch with an undecodable file
    between two images never completes: the loop stays suspended at the
    second file, the first image's encoding is not delivered to the form and
    the third file is never visited.  The copy in part_001 delivers the two
    encodings in input order and drops the failed file. *)
Theorem components_ingest_stalls_on_decode_failure :
  ComponentsAdminView.handleFileChange Sample.Image_load true Sample.toDataURL
    (Some [good_png; not_an_image; second_png]) empty_form
  = mkProjectForm (formData empty_form) true (fileInput empty_form)
      [EvReadAsDataURL "a.png"; EvDecode "data:image/png;base64,iVBORw0KGgo=";
       EvReadAsDataURL "b.txt"; EvDecode "data:text/plain;base64,aGVsbG8="]
  ∧ pp_imageUrls (formData
      (AdminView.handleFileChange Sample.Image_load true Sample.toDataURL
         (Some [good_png; not_an_image; second_png]) empty_form))
    = Some ["data:image/jpeg;base64,600x450/#FFFFFF/data:image/png;base64,iVBORw0KGgo=";
            "data:image/jpeg;base64,600x450/#FFFFFF/data:image/png;base64,iVBORw0KGgp="].
Proof. split; vm_compute; reflexivity. Qed.

(** * Further properties of the sources *)

(** ** Mutators of the application shell (part_000, lines 76-106) *)
Section MutatorFacts.
Variable JSON_stringify : value → string.
Variable setItem : gmap string string → string → string → Exn + gmap string string.

#[local] Abbreviation reachable := (Timeline.reachable JSON_stringify setItem).

Implicit Types (e : App.Env).

Lemma map_replace_absent {A} (test : A → bool) (updated : A) (l : list A) :
  Forall (fun x => test x = false) l →
  map (fun y => if test y then updated else y) l = l.
Proof.
  induction 1 as [|x l Hx _ IH]; simpl; [done|]. by rewrite Hx, IH.
Qed.

(** X8: An update whose id no stored project carries leaves the state as it
    was, silently; the state object is replaced all the same, so the
    persistence timer is armed and a write follows 500 ms later. *)
Theorem update_absent_id_is_silent_noop e (id : string) (updated : Project) :
  reachable e →
  Forall (fun q => prj_id q ≠ id) (projects (App.state e)) →
  App.state (App.updateProject id updated e) = App.state e
  ∧ App.isSyncing (App.updateProject id updated e) = true
  ∧ Timeline.pending (App.now e + 500) (App.updateProject id updated e)
  ∧ App.localStorage (App.updateProject id updated e) = App.localStorage e
  ∧ App.trace (App.updateProject id updated e) = App.trace e.
Proof.
  intros Hreach Habsent.
  pose proof (reachable_owned _ _ _ Hreach) as Ho.
  unfold App.updateProject.
  split; [|split; [|split; [by apply setState_pending|]]].
  - rewrite state_setState. unfold App.Updater.updateProject.
    rewrite (map_replace_absent (fun y => bool_decide (prj_id y = id))).
    + by destruct (App.state e).
    + eapply Forall_impl; [exact Habsent|]. intros q Hq. simpl in Hq.
      by apply bool_decide_eq_false.
  - by rewrite (setState_owned _ _ Ho).
  - by rewrite (setState_owned _ _ Ho).
Qed.

End MutatorFacts.

Lemma update_absent_id_witness :
  App.state (App.updateProject "NO-SUCH-ID"
               (mkProject "NO-SUCH-ID" "T" "SPACE" "2025-01-01" "d" [] "c" "COMPLETED")
               (App.mount 0 App.defaultState ∅))
  = App.defaultState.
Proof.
  apply (update_absent_id_is_silent_noop Sample.JSON_stringify (Sample.setItem 100000)
           (App.mount 0 App.defaultState ∅) "NO-SUCH-ID").
  - apply Timeline.reach_mount.
  - repeat constructor; simpl; discriminate.
Defined.

(** X9: After an update, a project that carries the id is the updated record;
    when the updated record has another id (a rename), no project carries the
    old id any more; applying the same update twice changes nothing more. *)
Theorem update_then_ids (id : string) (updated : Project) (e : App.Env) :
  (∀ q, q ∈ projects (App.state (App.updateProject id updated e)) →
        prj_id q = id → q = updated)
  ∧ (prj_id updated ≠ id →
     Forall (fun q => prj_id q ≠ id) (projects (App.state (App.updateProject id updated e))))
  ∧ projects (App.state (App.updateProject id updated (App.updateProject id updated e)))
    = projects (App.state (App.updateProject id updated e)).
Proof.
  unfold App.updateProject. rewrite !state_setState. simpl.
  split; [|split].
  - intros q Hq Hid. apply list_elem_of_fmap in Hq as (p & -> & _).
    case_bool_decide; [done|]. by destruct H.
  - intros Hrename. apply Forall_forall. intros q Hq.
    apply list_elem_of_fmap in Hq as (p & -> & _). by case_bool_decide.
  - rewrite <- list_fmap_compose. apply list_fmap_ext. intros i p _. simpl.
    repeat case_bool_decide; congruence.
Qed.

Lemma update_then_ids_witness :
  Forall (fun q => prj_id q ≠ "ODM-PRJ-2004-001")
    (projects (App.state
       (App.updateProject "ODM-PRJ-2004-001"
          (mkProject "RENAMED" "T" "SPACE" "2025-01-01" "d" [] "c" "COMPLETED")
          (App.mount 0 App.defaultState ∅)))).
Proof.
  apply (update_then_ids "ODM-PRJ-2004-001"
           (mkProject "RENAMED" "T" "SPACE" "2025-01-01" "d" [] "c" "COMPLETED")
           (App.mount 0 App.defaultState ∅)).
  simpl. discriminate.
Defined.



(** ** The persistence effect over whole runs (part_000, lines 41-55) *)
Section RunFacts.
Variable JSON_stringify : value → string.
Variable setItem : gmap string string → string → string → Exn + gmap string string.

#[local] Abbreviation advance_to := (App.advance_to JSON_stringify setItem).
#[local] Abbreviation reachable := (Timeline.reachable JSON_stringify setItem).
#[local] Abbreviation write_events := (Timeline.write_events JSON_stringify setItem).
#[local] Abbreviation written := (Timeline.written JSON_stringify setItem).
#[local] Abbreviation payload := (Timeline.payload JSON_stringify).

Implicit Types (e : App.Env) (d t T : Z).

Lemma write_events_shell t (ls : gmap string string) (s : AppState) :
  Forall Timeline.shell_event (write_events t ls s).
Proof.
  unfold Timeline.write_events.
  destruct (setItem ls App.STORAGE_KEY _) as [err|ls'].
  - apply Forall_cons. split; [left; simpl; eauto|].
    destruct (exn_is_Error err && bool_decide (exn_name err = "QuotaExceededError"));
      [|apply Forall_nil_2].
    apply Forall_cons. split; [by right|apply Forall_nil_2].
  - apply Forall_cons. split; [left; simpl; eauto|apply Forall_nil_2].
Qed.

(** X4: The syncing flag tells the truth: in every state a run can reach it is
    set exactly while one timer is pending, that timer is the only one, it
    is the one the cleanup would clear, and it closes over the current
    state; when the flag is down no timer exists. *)
Theorem syncing_flag_tracks_pending_write e :
  reachable e →
  (App.isSyncing e = true ∧ ∃ d, Timeline.pending d e)
  ∨ (App.isSyncing e = false ∧ App.timers e = []).
Proof.
  induction 1 as [t0 initial ls | updater e Hreach _ | t e Hreach IH].
  - left. split; [done|]. exists (t0 + 500)%Z, 0. simpl. repeat split. lia.
  - left. pose proof (reachable_owned _ _ _ Hreach) as Ho. split.
    + by rewrite (setState_owned _ _ Ho).
    + eexists. by apply setState_pending.
  - destruct IH as [[Hsync (d & Hp)] | [Hsync Hidle]].
    + destruct (decide (t < d)%Z) as [Hlt | Hge].
      * left. rewrite (advance_wait _ _ d) by done.
        destruct Hp as (id & Hts & Hcl & Hnow).
        split; [by destruct e|]. exists d, id.
        destruct e; simpl in *. repeat split; [done..|lia].
      * right. rewrite (advance_fire _ _ d) by (done || lia). done.
    + right. rewrite advance_idle by done. by destruct e.
Qed.

(** X5: In every state a run can reach, the trace holds nothing but calls of
    [setItem] on the shell's own storage key and quota alerts: the shell
    writes no other key and raises no other alert. *)
Theorem shell_writes_only_its_key e :
  reachable e → Forall Timeline.shell_event (App.trace e).
Proof.
  induction 1 as [t0 initial ls | updater e Hreach IH | t e Hreach IH].
  - apply Forall_nil_2.
  - by rewrite (setState_owned _ _ (reachable_owned _ _ _ Hreach)).
  - destruct (reachable_owned _ _ _ Hreach) as [Hidle | (d & Hp)].
    + rewrite advance_idle by done. by destruct e.
    + destruct (decide (t < d)%Z) as [Hlt | Hge].
      * rewrite (advance_wait _ _ d) by done. by destruct e.
      * rewrite (advance_fire _ _ d) by (done || lia). simpl.
        apply Forall_app. split; [done|apply write_events_shell].
Qed.

(** X6: A write that fails with anything but a quota error (an error of
    another name, or a thrown value that is no Error) is swallowed: the
    failed call is the only effect, no alert is raised, the state stays in
    memory, the storage is untouched and the syncing flag goes down. *)
Theorem other_write_failure_is_silent e (updater : AppState → AppState) T err :
  reachable e →
  (App.now e + 500 ≤ T)%Z →
  setItem (App.localStorage e) App.STORAGE_KEY (payload (updater (App.state e))) = inl err →
  exn_is_Error err = false ∨ exn_name err ≠ "QuotaExceededError" →
  let e1 := advance_to T (App.setState updater e) in
  App.trace e1
  = App.trace e ++
    [((App.now e + 500)%Z, EvSetItem App.STORAGE_KEY (payload (updater (App.state e))) false)]
  ∧ App.state e1 = updater (App.state e)
  ∧ App.localStorage e1 = App.localStorage e
  ∧ App.isSyncing e1 = false
  ∧ App.timers e1 = [].
Proof.
  intros Hreach HT Hfail Hother e1. subst e1.
  pose proof (burst_then_quiet _ _ e updater [] T Hreach I HT) as H. simpl in H.
  rewrite H. unfold Timeline.written, Timeline.write_events, Timeline.final_state.
  simpl. unfold Timeline.payload in *. rewrite Hfail.
  assert (Hno : exn_is_Error err && bool_decide (exn_name err = "QuotaExceededError") = false).
  { destruct Hother as [-> | Hname]; [done|].
    rewrite bool_decide_eq_false_2 by done. by destruct (exn_is_Error err). }
  by rewrite Hno.
Qed.

(** X3: The first render arms the timer too: without any change by the user,
    500 ms after start-up the shell writes the state it started with; before
    that moment nothing is written. *)
Theorem startup_writes_loaded_state (t0 T : Z) (initial : AppState) (ls : gmap string string) :
  ((T < t0 + 500)%Z →
     App.trace (advance_to T (App.mount t0 initial ls)) = []
     ∧ App.localStorage (advance_to T (App.mount t0 initial ls)) = ls
     ∧ App.isSyncing (advance_to T (App.mount t0 initial ls)) = true)
  ∧ ((t0 + 500 ≤ T)%Z →
     App.trace (advance_to T (App.mount t0 initial ls)) = write_events (t0 + 500) ls initial
     ∧ App.localStorage (advance_to T (App.mount t0 initial ls)) = written ls initial
     ∧ App.state (advance_to T (App.mount t0 initial ls)) = initial
     ∧ App.isSyncing (advance_to T (App.mount t0 initial ls)) = false).
Proof.
  assert (Hp : Timeline.pending (t0 + 500) (App.mount t0 initial ls)).
  { exists 0. simpl. repeat split. lia. }
  split; intros HT.
  - by rewrite (advance_wait _ _ _ _ _ Hp HT).
  - by rewrite (advance_fire _ _ _ _ _ Hp HT).
Qed.

(** X7: Less than 500 ms after a change nothing has been written yet, whatever
    was pending before the change: the storage and the trace are as they
    were and the syncing flag is up. *)
Theorem no_write_before_window_closes e (updater : AppState → AppState) T :
  reachable e →
  (T < App.now e + 500)%Z →
  App.trace (advance_to T (App.setState updater e)) = App.trace e
  ∧ App.localStorage (advance_to T (App.setState updater e)) = App.localStorage e
  ∧ App.state (advance_to T (App.setState updater e)) = updater (App.state e)
  ∧ App.isSyncing (advance_to T (App.setState updater e)) = true.
Proof.
  intros Hreach HT.
  pose proof (reachable_owned _ _ _ Hreach) as Ho.
  pose proof (setState_pending updater _ Ho) as Hp.
  rewrite (advance_wait _ _ _ _ _ Hp HT), (setState_owned _ _ Ho). done.
Qed.

End RunFacts.

Lemma syncing_flag_witness :
  App.isSyncing
    (App.advance_to Sample.JSON_stringify (Sample.setItem 100000) 500
       (App.mount 0 App.defaultState ∅)) = false
  ∧ App.timers
      (App.advance_to Sample.JSON_stringify (Sample.setItem 100000) 500
         (App.mount 0 App.defaultState ∅)) = [].
Proof.
  destruct (syncing_flag_tracks_pending_write Sample.JSON_stringify (Sample.setItem 100000)
              (App.advance_to Sample.JSON_stringify (Sample.setItem 100000) 500
                 (App.mount 0 App.defaultState ∅))
              (Timeline.reach_advance _ _ 500 _ (Timeline.reach_mount _ _ 0 App.defaultState ∅)))
    as [[Hup _] | Hdown].
  - vm_compute in Hup. discriminate Hup.
  - exact Hdown.
Defined.

Lemma shell_writes_only_its_key_witness :
  Forall Timeline.shell_event
    (App.trace
       (App.advance_to Sample.JSON_stringify (Sample.setItem 200) 500
          (App.mount 0 App.defaultState ∅))).
Proof.
  apply (shell_writes_only_its_key Sample.JSON_stringify (Sample.setItem 200)).
  apply Timeline.reach_advance, Timeline.reach_mount.
Defined.

Lemma other_write_failure_witness :
  App.trace
    (App.advance_to Sample.JSON_stringify Sample.setItem_denied 500
       (App.setState (App.Updater.updateSettings "T" "x") (App.mount 0 App.defaultState ∅)))
  = [(500%Z, EvSetItem App.STORAGE_KEY
               (Sample.JSON_stringify
                  (AppState_to_value (App.Updater.updateSettings "T" "x" App.defaultState)))
               false)].
Proof.
  apply (other_write_failure_is_silent Sample.JSON_stringify Sample.setItem_denied
           (App.mount 0 App.defaultState ∅) (App.Updater.updateSettings "T" "x") 500
           (mkExn true "SecurityError")).
  - apply Timeline.reach_mount.
  - simpl. lia.
  - reflexivity.
  - right. discriminate.
Defined.

Lemma startup_writes_witness :
  App.localStorage
    (App.advance_to Sample.JSON_stringify (Sample.setItem 100000) 500
       (App.mount 0 App.defaultState ∅))
  = Timeline.written Sample.JSON_stringify (Sample.setItem 100000) ∅ App.defaultState
  ∧ App.trace
      (App.advance_to Sample.JSON_stringify (Sample.setItem 100000) 499
         (App.mount 0 App.defaultState ∅)) = [].
Proof.
  destruct (startup_writes_loaded_state Sample.JSON_stringify (Sample.setItem 100000)
              0 500 App.defaultState ∅) as [_ Hlate].
  destruct (startup_writes_loaded_state Sample.JSON_stringify (Sample.setItem 100000)
              0 499 App.defaultState ∅) as [Hearly _].
  destruct (Hlate ltac:(lia)) as (_ & Hls & _).
  destruct (Hearly ltac:(lia)) as (Htr & _).
  split; [exact Hls|exact Htr].
Defined.

Lemma no_write_before_window_witness :
  App.trace
    (App.advance_to Sample.JSON_stringify (Sample.setItem 100000) 499
       (App.setState (App.Updater.updateSettings "T" "x") (App.mount 0 App.defaultState ∅)))
  = [].
Proof.
  apply (no_write_before_window_closes Sample.JSON_stringify (Sample.setItem 100000)
           (App.mount 0 App.defaultState ∅) (App.Updater.updateSettings "T" "x") 499).
  - apply Timeline.reach_mount.
  - simpl. lia.
Defined.

(** ** The merge of the state loader (part_000, lines 28-32) *)
Lemma assoc_set_prop (k k' : string) (v : value) (fields : list (string * value)) :
  assoc k (set_prop k' v fields) = if bool_decide (k' = k) then Some v else assoc k fields.
Proof.
  induction fields as [|[k0 v0] rest IH]; simpl.
  - done.
  - destruct (bool_decide (k0 = k')) eqn:Hk0; simpl.
    + apply bool_decide_eq_true in Hk0 as ->. by case_bool_decide.
    + apply bool_decide_eq_false in Hk0. rewrite IH.
      repeat case_bool_decide; congruence.
Qed.

Lemma assoc_foldl_set_prop (k : string) (b : list (string * value)) :
  ∀ a, assoc k (foldl (fun acc kv => set_prop kv.1 kv.2 acc) a b)
       = match assoc k (reverse b) with
         | Some v => Some v
         | None => assoc k a
         end.
Proof.
  induction b as [|[k' v'] b IH] using rev_ind; intros a; simpl.
  - done.
  - rewrite foldl_app, reverse_app. simpl.
    rewrite assoc_set_prop, IH. by case_bool_decide.
Qed.

Lemma assoc_None (k : string) (l : list (string * value)) :
  assoc k l = None ↔ k ∉ l.*1.
Proof.
  induction l as [|[k' v'] l IH]; simpl.
  - split; [intros _; apply not_elem_of_nil|done].
  - rewrite not_elem_of_cons. case_bool_decide as Hk.
    + split; [done|]. intros [Hne _]. by destruct Hne.
    + rewrite IH. split; [by intros ?; split; [congruence|]|by intros [_ ?]].
Qed.

Lemma assoc_Some (k : string) (v : value) (l : list (string * value)) :
  NoDup l.*1 → assoc k l = Some v ↔ (k, v) ∈ l.
Proof.
  induction l as [|[k' v'] l IH]; simpl; intros Hnd.
  - split; [done|]. by intros ?%elem_of_nil.
  - apply NoDup_cons in Hnd as [Hk' Hnd]. rewrite elem_of_cons.
    case_bool_decide as Hk.
    + subst k'. split; [intros [= ->]; by left|].
      intros [[= ->] | Hin]; [done|].
      destruct Hk'. apply list_elem_of_fmap. by exists (k, v).
    + rewrite (IH Hnd). split; [by right|]. intros [[= ? ?] | Hin]; [done|done].
Qed.

Lemma assoc_reverse (k : string) (l : list (string * value)) :
  NoDup l.*1 → assoc k (reverse l) = assoc k l.
Proof.
  intros Hnd.
  assert (Hnd' : NoDup (reverse l).*1) by (by rewrite fmap_reverse, reverse_Permutation).
  destruct (assoc k l) as [v|] eqn:Hl.
  - apply (assoc_Some _ _ _ Hnd'). rewrite elem_of_reverse. by apply (assoc_Some _ _ _ Hnd).
  - apply assoc_None. rewrite fmap_reverse, elem_of_reverse. by apply assoc_None.
Qed.

(* the shape of the default state absorbs a state of the same shape *)
Lemma spread_AppState (d s : AppState) :
  spread (AppState_fields d) (AppState_to_value s) = AppState_to_value s.
Proof. reflexivity. Qed.

Section MergeFacts.
Variable JSON_parse : string → Exn + value.
Variable JSON_stringify : value → string.
Variable getItem : gmap string string → string → Exn + option string.
Variable setItem : gmap string string → string → string → Exn + gmap string string.

#[local] Abbreviation load := (App.load JSON_parse getItem).
#[local] Abbreviation advance_to := (App.advance_to JSON_stringify setItem).
#[local] Abbreviation reachable := (Timeline.reachable JSON_stringify setItem).
#[local] Abbreviation payload := (Timeline.payload JSON_stringify).

(** X1: A stored document that passes the shape check is merged over the
    default dataset field by field: every field of the document wins, every
    field it lacks (a missing [services], say) comes from the defaults, and
    fields unknown to the shell are carried along. *)
Theorem load_merges_stored_over_default
    (ls : gmap string string) (saved : string) (fields : list (string * value))
    (items : list value) :
  getItem ls App.STORAGE_KEY = inr (Some saved) →
  saved ≠ EmptyString →
  JSON_parse saved = inr (VObj fields) →
  assoc "projects" fields = Some (VArr items) →
  NoDup fields.*1 →
  ∃ merged,
    load ls = VObj merged
    ∧ ∀ k, assoc k merged
           = match assoc k fields with
             | Some v => Some v
             | None => assoc k (AppState_fields App.defaultState)
             end.
Proof.
  intros Hget Hne Hparse Hprj Hnd.
  unfold App.load, App.load_try, bind_exn. rewrite Hget.
  rewrite bool_decide_eq_false_2 by done. rewrite Hparse. simpl. rewrite Hprj. simpl.
  eexists. split; [reflexivity|]. intros k.
  by rewrite assoc_foldl_set_prop, assoc_reverse.
Qed.

(** X2: Round trip: when the debounced write succeeds, a loader run on the
    resulting storage returns the state that was in memory, provided the
    storage hands back what was stored and the parser inverts the
    serializer on that state. *)
Theorem persist_then_load_round_trip
    (e : App.Env) (updater : AppState → AppState) (T : Z) (ls' : gmap string string) :
  reachable e →
  (App.now e + 500 ≤ T)%Z →
  setItem (App.localStorage e) App.STORAGE_KEY (payload (updater (App.state e))) = inr ls' →
  getItem ls' App.STORAGE_KEY = inr (Some (payload (updater (App.state e)))) →
  payload (updater (App.state e)) ≠ EmptyString →
  JSON_parse (payload (updater (App.state e))) = inr (AppState_to_value (updater (App.state e))) →
  load (App.localStorage (advance_to T (App.setState updater e)))
  = AppState_to_value (App.state (advance_to T (App.setState updater e))).
Proof.
  intros Hreach HT Hset Hget Hne Hparse.
  pose proof (burst_then_quiet _ _ e updater [] T Hreach I HT) as H. simpl in H.
  rewrite H. simpl. unfold Timeline.written, Timeline.final_state. simpl.
  unfold Timeline.payload in *. rewrite Hset.
  unfold App.load, App.load_try, bind_exn. rewrite Hget.
  rewrite bool_decide_eq_false_2 by done. rewrite Hparse. simpl.
  apply spread_AppState.
Qed.

End MergeFacts.

Lemma load_merges_witness :
  ∃ merged,
    App.load Sample.JSON_parse Sample.getItem
      {[ App.STORAGE_KEY := Sample.JSON_stringify (VObj partial_doc) ]} = VObj merged
    ∧ assoc "siteTitle" merged = Some (VStr "X")
    ∧ assoc "projects" merged = Some (VArr [])
    ∧ assoc "services" merged = assoc "services" (AppState_fields App.defaultState).
Proof.
  destruct (load_merges_stored_over_default Sample.JSON_parse Sample.getItem
              {[ App.STORAGE_KEY := Sample.JSON_stringify (VObj partial_doc) ]}
              (Sample.JSON_stringify (VObj partial_doc)) partial_doc [])
    as (merged & Hload & Hfields).
  - reflexivity.
  - vm_compute. discriminate.
  - vm_compute. reflexivity.
  - reflexivity.
  - simpl. apply NoDup_cons. split; [|apply NoDup_singleton].
    intros Hin%list_elem_of_singleton. discriminate Hin.
  - exists merged. split; [exact Hload|].
    split; [exact (Hfields "siteTitle")|].
    split; [exact (Hfields "projects")|exact (Hfields "services")].
Defined.

Lemma persist_then_load_witness :
  App.load Sample.JSON_parse Sample.getItem
    (App.localStorage
       (App.advance_to Sample.JSON_stringify (Sample.setItem 100000) 500
          (App.setState (App.Updater.updateSettings "T" "x")
             (App.mount 0 App.defaultState ∅))))
  = AppState_to_value
      (App.state
         (App.advance_to Sample.JSON_stringify (Sample.setItem 100000) 500
            (App.setState (App.Updater.updateSettings "T" "x")
               (App.mount 0 App.defaultState ∅)))).
Proof.
  apply (persist_then_load_round_trip Sample.JSON_parse Sample.JSON_stringify
           Sample.getItem (Sample.setItem 100000)
           (App.mount 0 App.defaultState ∅) (App.Updater.updateSettings "T" "x") 500
           {[ App.STORAGE_KEY :=
                Sample.JSON_stringify
                  (AppState_to_value (App.Updater.updateSettings "T" "x" App.defaultState)) ]}).
  - apply Timeline.reach_mount.
  - simpl. lia.
  - vm_compute. reflexivity.
  - reflexivity.
  - vm_compute. discriminate.
  - vm_compute. reflexivity.
Defined.

(** ** Access to the admin view (part_000, lines 57-73) *)

Lemma admin_from (events : list App.AuthEvent) :
  ∀ a, App.isAdmin a = false →
       App.isAdmin (App.auth_run events a) = true →
       ∃ before after,
         events = before ++ App.SubmitAuth :: after
         ∧ App.password (App.auth_run before a) = "0729".
Proof.
  induction events as [|ev rest IH]; intros a Hout Hin; simpl in *.
  - congruence.
  - destruct (App.isAdmin (App.auth_step a ev)) eqn:Hstep.
    + destruct ev; simpl in Hstep.
      * unfold App.handleAdminToggle in Hstep. rewrite Hout in Hstep. simpl in Hstep. congruence.
      * congruence.
      * unfold App.handleAuth in Hstep. case_bool_decide as Hpw; simpl in Hstep; [|congruence].
        by exists [], rest.
      * congruence.
    + destruct (IH _ Hstep Hin) as (before & after & -> & Hpw).
      by exists (ev :: before), after.
Qed.

(** X11: Whatever the user clicks and types, starting from the initial state,
    the admin view is shown only after a submit made while the passkey field
    held [0729]. *)
Theorem admin_requires_passcode (events : list App.AuthEvent) :
  App.isAdmin (App.auth_run events App.auth_initial) = true →
  ∃ before after,
    events = before ++ App.SubmitAuth :: after
    ∧ App.password (App.auth_run before App.auth_initial) = "0729".
Proof. by apply admin_from. Qed.

Lemma admin_requires_passcode_witness :
  ∃ before after,
    [App.ClickToggle; App.TypePassword "1234"; App.SubmitAuth;
     App.TypePassword "0729"; App.SubmitAuth]
    = before ++ App.SubmitAuth :: after
    ∧ App.password (App.auth_run before App.auth_initial) = "0729".
Proof.
  apply (admin_requires_passcode
           [App.ClickToggle; App.TypePassword "1234"; App.SubmitAuth;
            App.TypePassword "0729"; App.SubmitAuth]).
  reflexivity.
Defined.

(** A submit with any other passkey leaves the mode as it was, empties the
    field and raises the error mark; a submit with the passkey enters the
    admin view, closes the overlay and empties the field. *)
Theorem handleAuth_outcomes (a : App.Auth) :
  (App.password a ≠ "0729" →
     App.handleAuth a = App.mkAuth (App.isAdmin a) (App.isAuthenticating a) EmptyString true)
  ∧ (App.password a = "0729" →
     App.handleAuth a = App.mkAuth true false EmptyString false).
Proof.
  unfold App.handleAuth. split; intros Hpw.
  - by rewrite bool_decide_eq_false_2.
  - by rewrite bool_decide_eq_true_2.
Qed.

Lemma handleAuth_outcomes_witness :
  App.handleAuth (App.password_onChange "729" (App.handleAdminToggle App.auth_initial))
  = App.mkAuth false true EmptyString true
  ∧ App.handleAuth (App.password_onChange "0729" (App.handleAdminToggle App.auth_initial))
    = App.mkAuth true false EmptyString false.
Proof.
  split.
  - apply (handleAuth_outcomes
             (App.password_onChange "729" (App.handleAdminToggle App.auth_initial))).
    simpl. discriminate.
  - apply (handleAuth_outcomes
             (App.password_onChange "0729" (App.handleAdminToggle App.auth_initial))).
    reflexivity.
Defined.

(** ** Removing an image from the project form *)

Lemma filter_index_keeps_all (l : list string) :
  ∀ k j, j < k →
    map snd (filter (fun indexed : nat * string => indexed.1 ≠ j)
               (imap (fun i url => (k + i, url)) l)) = l.
Proof.
  induction l as [|url l IH]; intros k j Hlt; [done|].
  rewrite imap_cons. rewrite filter_cons_True by (simpl; lia). simpl. f_equal.
  rewrite <- (IH (S k) j) at 2 by lia.
  f_equal. f_equal. apply imap_ext. intros i x _. simpl. f_equal. lia.
Qed.

Lemma filter_index_delete (l : list string) :
  ∀ k index,
    map snd (filter (fun indexed : nat * string => indexed.1 ≠ k + index)
               (imap (fun i url => (k + i, url)) l)) = delete index l.
Proof.
  induction l as [|url l IH]; intros k index; [by destruct index|].
  rewrite imap_cons. destruct index as [|index].
  - rewrite filter_cons_False by (simpl; lia). simpl.
    rewrite <- (filter_index_keeps_all l (S k) (k + 0)) at 2 by lia.
    f_equal. f_equal. apply imap_ext. intros i x _. simpl. f_equal. lia.
  - rewrite filter_cons_True by (simpl; lia). simpl. f_equal.
    rewrite <- (IH (S k) index).
    replace (k + S index) with (S k + index) by lia.
    f_equal. f_equal. apply imap_ext. intros i x _. simpl. f_equal. lia.
Qed.

(** X12: [removeImage index] takes out exactly the image at that position and
    keeps the others in order; a position past the end changes nothing; the
    other fields of the form are untouched and a missing list becomes the
    empty list. *)
Theorem removeImage_deletes_position (index : nat) (prev : PartialProject) :
  let urls := default [] (pp_imageUrls prev) in
  removeImage index prev = pp_with_imageUrls prev (take index urls ++ drop (S index) urls)
  ∧ ((length urls ≤ index)%nat → pp_imageUrls (removeImage index prev) = Some urls)
  ∧ ((index < length urls)%nat →
     ∃ removed, urls !! index = Some removed
       ∧ ∀ kept, pp_imageUrls (removeImage index prev) = Some kept →
                 length kept + 1 = length urls).
Proof.
  intros urls. unfold removeImage. fold urls.
  pose proof (filter_index_delete urls 0 index) as Hdel. simpl in Hdel.
  rewrite Hdel, delete_take_drop.
  split; [done|]. split.
  - intros Hge. simpl. by rewrite take_ge, drop_ge, app_nil_r by lia.
  - intros Hlt. destruct (lookup_lt_is_Some_2 urls index Hlt) as [removed Hrem].
    exists removed. split; [done|]. simpl. intros kept [= <-].
    rewrite length_app, length_take, length_drop. lia.
Qed.

Lemma removeImage_witness :
  pp_imageUrls
    (removeImage 1 (mkPartialProject None None None None None None None (Some ["a"; "b"; "c"])))
  = Some ["a"; "c"]
  ∧ pp_imageUrls
      (removeImage 7 (mkPartialProject None None None None None None None (Some ["a"; "b"; "c"])))
    = Some ["a"; "b"; "c"].
Proof.
  destruct (removeImage_deletes_position 1
              (mkPartialProject None None None None None None None (Some ["a"; "b"; "c"])))
    as (Heq & _ & _).
  destruct (removeImage_deletes_position 7
              (mkPartialProject None None None None None None None (Some ["a"; "b"; "c"])))
    as (_ & Hpast & _).
  split; [by rewrite Heq|]. apply Hpast. simpl. lia.
Defined.

(** ** Scaling in [compressImage] (both admin views) *)

Lemma round_div_nearest (a b : Z) :
  (0 < b)%Z → (2 * Z.abs (round_div a b * b - a) ≤ b)%Z.
Proof.
  intros Hb. unfold round_div.
  pose proof (Z.mul_div_le (2 * a + b) (2 * b) ltac:(lia)) as Hle.
  pose proof (Z.mul_succ_div_gt (2 * a + b) (2 * b) ltac:(lia)) as Hgt.
  lia.
Qed.

(** X13: The canvas handed to the encoder is never wider than [maxWidth]: its
    width is the smaller of the image width and [maxWidth]; an image that
    fits keeps its size; a wider one gets the height that keeps the aspect
    ratio, off by at most half a pixel.  With a 2d context the canvas is
    filled white over its whole area before the image is drawn over it. *)
Theorem onload_scales_within_bound
    (getContext_2d : bool) (toDataURL : Canvas → string → Quality → string)
    (base64Str : string) (img_width img_height maxWidth : Z) (quality : Quality) :
  (0 < img_width)%Z →
  let height :=
    if (img_width >? maxWidth)%Z
    then round_div (img_height * maxWidth) img_width else img_height in
  let width := Z.min img_width maxWidth in
  let ops :=
    if getContext_2d
    then [FillRect "#FFFFFF" 0 0 width height; DrawImage base64Str 0 0 width height]
    else [] in
  AdminView.onload getContext_2d toDataURL base64Str img_width img_height maxWidth quality
  = toDataURL (mkCanvas width height ops) "image/jpeg" quality
  ∧ ComponentsAdminView.onload getContext_2d toDataURL base64Str img_width img_height
      maxWidth quality
    = toDataURL (mkCanvas width height ops) "image/jpeg" quality
  ∧ (width ≤ maxWidth)%Z
  ∧ ((img_width ≤ maxWidth)%Z → width = img_width ∧ height = img_height)
  ∧ (2 * Z.abs (height * img_width - img_height * width) ≤ img_width)%Z.
Proof.
  intros Hpos height width ops. subst height width ops.
  unfold AdminView.onload, ComponentsAdminView.onload.
  destruct (img_width >? maxWidth)%Z eqn:Hgt.
  - replace (img_width `min` maxWidth)%Z with maxWidth by lia.
    repeat split; try done; try lia.
    by apply round_div_nearest.
  - replace (img_width `min` maxWidth)%Z with img_width by lia.
    repeat split; try done; lia.
Qed.

Lemma onload_scales_witness :
  AdminView.onload true Sample.toDataURL "data:image/png;base64,AAAA" 1200 900 600
    (QArith_base.Qmake 4 10)
  = Sample.toDataURL
      (mkCanvas 600 450
         [FillRect "#FFFFFF" 0 0 600 450; DrawImage "data:image/png;base64,AAAA" 0 0 600 450])
      "image/jpeg" (QArith_base.Qmake 4 10).
Proof.
  apply (onload_scales_within_bound true Sample.toDataURL "data:image/png;base64,AAAA"
           1200 900 600 (QArith_base.Qmake 4 10)).
  lia.
Defined.

(** ** Ingestion in part_001, further facts *)

Lemma length_omap_le {A B} (f : A → option B) (l : list A) :
  (length (omap f l) ≤ length l)%nat.
Proof.
  induction l as [|x l IH]; [done|].
  change (omap f (x :: l)) with (match f x with Some y => y :: omap f l | None => omap f l end).
  destruct (f x); simpl; lia.
Qed.

Section IngestMoreFacts.
Variable Image_load : string → option (Z * Z).
Variable getContext_2d : bool.
Variable toDataURL : Canvas → string → Quality → string.

#[local] Abbreviation handleFileChange :=
  (AdminView.handleFileChange Image_load getContext_2d toDataURL).
#[local] Abbreviation contribution := (AdminView.contribution Image_load getContext_2d toDataURL).
#[local] Abbreviation archive_handleFileChange :=
  (AdminView.archive_handleFileChange Image_load getContext_2d toDataURL).
#[local] Abbreviation compressImage_default :=
  (AdminView.compressImage_default Image_load getContext_2d toDataURL).

Lemma contribution_nonempty (file : File) (encoded : string) :
  contribution file = Some encoded → encoded ≠ EmptyString.
Proof.
  unfold AdminView.contribution.
  destruct (file_size file >? _)%Z; [done|].
  destruct (AdminView.compressImage_default _ _ _ _) as [compressed|]; [|done].
  unfold nonempty. case_bool_decide; simpl; [done|]. by intros [= <-].
Qed.

(** X17: A batch always completes in part_001: the processing flag is down, the
    file input is reset, the images already in the form stay in front, at
    most one string per file is added, and an empty string is never added,
    whatever the decoder and the encoder return. *)
Theorem ingestion_completes_without_empty_entries (files : list File) (c : ProjectForm) :
  ∃ added,
    pp_imageUrls (formData (handleFileChange (Some files) c))
    = Some (default [] (pp_imageUrls (formData c)) ++ added)
    ∧ Forall (fun url => url ≠ EmptyString) added
    ∧ (length added ≤ length files)%nat
    ∧ isProcessing (handleFileChange (Some files) c) = false
    ∧ fileInput (handleFileChange (Some files) c)
      = match fileInput c with Some _ => Some EmptyString | None => None end.
Proof.
  rewrite handleFileChange_spec. simpl.
  exists (omap contribution files). split; [done|]. split; [|split; [|done]].
  - apply Forall_forall. intros url Hurl.
    apply list_elem_of_omap in Hurl as (file & _ & Hfile).
    by apply (contribution_nonempty file).
  - apply length_omap_le.
Qed.

(** X18: The archive form has no guard of its own: whatever the size of the
    selected file, it is read and decoded; the handler always completes, and
    a failed decode stores the empty string as the item's image, replacing
    the image the item had. *)
Theorem archive_upload_replaces_image (file : File) (others : list File) (c : ArchiveForm) :
  archiveProcessing (archive_handleFileChange (Some (file :: others)) c) = false
  ∧ archive_trace (archive_handleFileChange (Some (file :: others)) c)
    = archive_trace c ++ [EvReadAsDataURL (file_name file);
                           EvDecode (src_of (readAsDataURL file))]
  ∧ (Image_load (src_of (readAsDataURL file)) = None →
     pa_imageUrl (archiveData (archive_handleFileChange (Some (file :: others)) c))
     = Some EmptyString)
  ∧ (∀ w h, Image_load (src_of (readAsDataURL file)) = Some (w, h) →
     pa_imageUrl (archiveData (archive_handleFileChange (Some (file :: others)) c))
     = Some (AdminView.onload getContext_2d toDataURL (src_of (readAsDataURL file))
               w h 600 (QArith_base.Qmake 4 10))).
Proof.
  unfold AdminView.archive_handleFileChange, AdminView.compressImage_default,
    AdminView.compressImage. simpl.
  destruct (Image_load (src_of (readAsDataURL file))) as [[w h]|]; simpl.
  - repeat split; [done|]. by intros w' h' [= <- <-].
  - repeat split; done.
Qed.

End IngestMoreFacts.

Lemma decode_failure_dropped_witness :
  AdminView.compressImage_default Sample.Image_load true Sample.toDataURL
    (src_of (readAsDataURL not_an_image)) = Resolved EmptyString
  ∧ AdminView.contribution Sample.Image_load true Sample.toDataURL not_an_image = None.
Proof.
  apply (decode_failure_dropped Sample.Image_load true Sample.toDataURL not_an_image).
  reflexivity.
Defined.

Lemma oversized_file_skipped_witness :
  form_trace (AdminView.handleFileChange Sample.Image_load true Sample.toDataURL
                (Some ([good_png] ++ huge_png :: [second_png])) empty_form)
  = form_trace empty_form
    ++ concat (map AdminView.file_events [good_png])
    ++ [EvAlert "SKIP: FILE_TOO_LARGE (>10MB)"]
    ++ concat (map AdminView.file_events [second_png]).
Proof.
  apply (oversized_file_skipped Sample.Image_load true Sample.toDataURL
           [good_png] [second_png] huge_png empty_form).
  simpl. lia.
Defined.

Lemma archive_upload_witness :
  pa_imageUrl
    (archiveData
       (AdminView.archive_handleFileChange Sample.Image_load true Sample.toDataURL
          (Some [not_an_image])
          (mkArchiveForm
             (mkPartialArchiveItem (Some "1") (Some "2015") (Some "Le Labo") (Some "Retail")
                (Some "Ecommerce") (Some "https://picsum.photos/seed/lelabo/400/600"))
             false [])))
  = Some EmptyString.
Proof.
  apply (archive_upload_replaces_image Sample.Image_load true Sample.toDataURL
           not_an_image []).
  reflexivity.
Defined.

(** ** Ingestion in src/components/AdminView.tsx, further facts *)
Section ComponentsIngestFacts.
Variable Image_load : string → option (Z * Z).
Variable getContext_2d : bool.
Variable toDataURL : Canvas → string → Quality → string.

#[local] Abbreviation ingest_loop :=
  (ComponentsAdminView.ingest_loop Image_load getContext_2d toDataURL).
#[local] Abbreviation handleFileChange :=
  (ComponentsAdminView.handleFileChange Image_load getContext_2d toDataURL).
#[local] Abbreviation settled := (ComponentsAdminView.settled Image_load getContext_2d toDataURL).
#[local] Abbreviation decodable := (ComponentsAdminView.decodable Image_load).

Lemma settled_decodable (file : File) :
  decodable file →
  ∃ encoded,
    ComponentsAdminView.compressImage_default Image_load getContext_2d toDataURL
      (src_of (readAsDataURL file)) = Resolved encoded
    ∧ settled file = Some encoded.
Proof.
  unfold ComponentsAdminView.decodable, ComponentsAdminView.settled, ComponentsAdminView.compressImage_default,
    ComponentsAdminView.compressImage.
  destruct (Image_load _) as [[w h]|]; [eauto|done].
Qed.

Lemma components_loop_decodable (files : list File) :
  ∀ (newUrls : list string) (tr : list Event),
    Forall decodable files →
    ingest_loop files newUrls tr
    = (Resolved (newUrls ++ omap settled files),
       tr ++ concat (map ComponentsAdminView.file_events files)).
Proof.
  induction files as [|file rest IH]; intros newUrls tr Hall; simpl.
  - by rewrite !app_nil_r.
  - apply Forall_cons in Hall as [Hfile Hrest].
    destruct (settled_decodable file Hfile) as (encoded & Henc & Hset).
    rewrite Henc, Hset, (IH _ _ Hrest). unfold ComponentsAdminView.file_events.
    simpl. by rewrite <- !app_assoc.
Qed.

Lemma components_loop_stalls (before after : list File) (bad : File) :
  ∀ (newUrls : list string) (tr : list Event),
    Forall decodable before →
    Image_load (src_of (readAsDataURL bad)) = None →
    ingest_loop (before ++ bad :: after) newUrls tr
    = (Pending,
       tr ++ concat (map ComponentsAdminView.file_events before)
          ++ ComponentsAdminView.file_events bad).
Proof.
  induction before as [|file rest IH]; intros newUrls tr Hall Hbad; simpl.
  - unfold ComponentsAdminView.compressImage_default, ComponentsAdminView.compressImage.
    by rewrite Hbad.
  - apply Forall_cons in Hall as [Hfile Hrest].
    destruct (settled_decodable file Hfile) as (encoded & Henc & _).
    rewrite Henc, (IH _ _ Hrest Hbad). unfold ComponentsAdminView.file_events.
    simpl. by rewrite <- !app_assoc.
Qed.

(** X22: In src/components/AdminView.tsx a batch whose files all decode adds one
    encoding per file, in the order of the files, after the images already in
    the form: nothing is filtered, neither by size nor by content. *)
Theorem components_batch_adds_every_file (files : list File) (c : ProjectForm) :
  Forall decodable files →
  ∃ added,
    handleFileChange (Some files) c
    = mkProjectForm
        (pp_with_imageUrls (formData c) (default [] (pp_imageUrls (formData c)) ++ added))
        false
        (match fileInput c with Some _ => Some EmptyString | None => None end)
        (form_trace c ++ concat (map ComponentsAdminView.file_events files))
    ∧ length added = length files
    ∧ ∀ i file, files !! i = Some file → (settled file) = added !! i.
Proof.
  intros Hall. exists (omap settled files).
  unfold ComponentsAdminView.handleFileChange.
  rewrite (components_loop_decodable files [] (form_trace c) Hall). simpl.
  split; [done|].
  assert (Hmap : omap settled files = map (fun file => default EmptyString (settled file)) files).
  { clear c. induction Hall as [|file rest Hfile _ IH]; [done|].
    destruct (settled_decodable file Hfile) as (encoded & _ & Hset).
    change (omap settled (file :: rest))
      with (match settled file with Some y => y :: omap settled rest
                                  | None => omap settled rest end).
    rewrite Hset, IH. simpl. by rewrite Hset. }
  rewrite Hmap. split; [by rewrite length_map|].
  intros i file Hi. rewrite list_lookup_fmap, Hi. simpl.
  assert (Hfile : decodable file).
  { eapply Forall_forall; [exact Hall|]. by eapply list_elem_of_lookup_2. }
  destruct (settled_decodable file Hfile) as (encoded & _ & Hset). by rewrite Hset.
Qed.

(** X23: In src/components/AdminView.tsx a batch never completes once it meets a
    file the decoder rejects: the form keeps its data and stays in the
    processing state, the encodings of the files before it are never
    delivered, and the files after it are never read. *)
Theorem components_batch_stalls_at_bad_file
    (before after : list File) (bad : File) (c : ProjectForm) :
  Forall decodable before →
  Image_load (src_of (readAsDataURL bad)) = None →
  handleFileChange (Some (before ++ bad :: after)) c
  = mkProjectForm (formData c) true (fileInput c)
      (form_trace c ++ concat (map ComponentsAdminView.file_events before)
         ++ ComponentsAdminView.file_events bad).
Proof.
  intros Hall Hbad. unfold ComponentsAdminView.handleFileChange.
  by rewrite (components_loop_stalls before after bad [] (form_trace c) Hall Hbad).
Qed.

End ComponentsIngestFacts.

Lemma components_batch_adds_witness :
  ∃ added,
    ComponentsAdminView.handleFileChange Sample.Image_load true Sample.toDataURL
      (Some [good_png; huge_png]) empty_form
    = mkProjectForm
        (pp_with_imageUrls (formData empty_form)
           (default [] (pp_imageUrls (formData empty_form)) ++ added))
        false (Some EmptyString)
        (form_trace empty_form
         ++ concat (map ComponentsAdminView.file_events [good_png; huge_png]))
    ∧ length added = 2.
Proof.
  destruct (components_batch_adds_every_file Sample.Image_load true Sample.toDataURL
              [good_png; huge_png] empty_form) as (added & Hform & Hlen & _).
  - repeat constructor; discriminate.
  - exists added. split; [exact Hform|exact Hlen].
Defined.

Lemma components_batch_stalls_witness :
  ComponentsAdminView.handleFileChange Sample.Image_load true Sample.toDataURL
    (Some ([good_png] ++ not_an_image :: [second_png])) empty_form
  = mkProjectForm (formData empty_form) true (fileInput empty_form)
      (form_trace empty_form
       ++ concat (map ComponentsAdminView.file_events [good_png])
       ++ ComponentsAdminView.file_events not_an_image).
Proof.
  apply (components_batch_stalls_at_bad_file Sample.Image_load true Sample.toDataURL
           [good_png] [second_png] not_an_image empty_form).
  - repeat constructor; discriminate.
  - reflexivity.
Defined.

(** ** Import in part_001, further facts *)
Section ImportMoreFacts.
Variable JSON_parse : string → Exn + value.
Variable JSON_stringify : value → string.
Variable getItem : gmap string string → string → Exn + option string.
Variable setItem : gmap string string → string → string → Exn + gmap string string.
Variable window_confirm : string → bool.

#[local] Abbreviation handleImport :=
  (AdminView.handleImport JSON_parse JSON_stringify setItem window_confirm).
#[local] Abbreviation load := (App.load JSON_parse getItem).


(** X21: The import check is weaker than the loader's: after an accepted import
    and the reload, the loader shows the imported document merged over the
    defaults when its [projects] is an array, and the bare default dataset
    when [projects] is any other truthy value: such a document replaces
    the stored data and is then itself discarded. *)
Theorem import_then_reload
    (file : File) (others : list File) (text : string) (json prj : value)
    (w : Browser) (ls' : gmap string string) :
  file_text file = Some text →
  JSON_parse text = inr json →
  get_prop json "projects" = inr (Some prj) → truthy prj = true →
  window_confirm "OVERWRITE CURRENT DATABASE?" = true →
  setItem (bw_localStorage w) App.STORAGE_KEY (JSON_stringify json) = inr ls' →
  getItem ls' App.STORAGE_KEY = inr (Some (JSON_stringify json)) →
  JSON_stringify json ≠ EmptyString →
  JSON_parse (JSON_stringify json) = inr json →
  load (bw_localStorage (handleImport (Some (file :: others)) w))
  = if isArray (Some prj)
    then spread (AppState_fields App.defaultState) json
    else AppState_to_value App.defaultState.
Proof.
  intros Htext Hparse Hprj Htruthy Hyes Hset Hget Hne Hround.
  unfold AdminView.handleImport. simpl. rewrite Htext, Hparse, Hprj. simpl.
  rewrite Htruthy, Hyes. change AdminView.IMPORT_KEY with App.STORAGE_KEY.
  rewrite Hset. simpl.
  unfold App.load, App.load_try, bind_exn. rewrite Hget.
  rewrite bool_decide_eq_false_2 by done. rewrite Hround.
  assert (Hobj : truthy json = true) by (destruct json; simpl in *; done).
  rewrite Hobj, Hprj. simpl. by destruct prj.
Qed.

End ImportMoreFacts.

(* a backup whose projects field is a string, not an array *)
Lemma import_then_reload_witness :
  App.load Sample.JSON_parse Sample.getItem
    (bw_localStorage
       (AdminView.handleImport Sample.JSON_parse Sample.JSON_stringify
          (Sample.setItem 100000) (fun _ => true)
          (Some [mkFile "odd.json" 20 None
                   (Some (Sample.JSON_stringify (VObj [("projects", VStr "none")])))])
          (mkBrowser
             {[ App.STORAGE_KEY := Sample.JSON_stringify (VObj partial_doc) ]} [])))
  = AppState_to_value App.defaultState.
Proof.
  apply (import_then_reload Sample.JSON_parse Sample.JSON_stringify Sample.getItem
           (Sample.setItem 100000) (fun _ => true)
           (mkFile "odd.json" 20 None
              (Some (Sample.JSON_stringify (VObj [("projects", VStr "none")]))))
           [] (Sample.JSON_stringify (VObj [("projects", VStr "none")]))
           (VObj [("projects", VStr "none")]) (VStr "none")
           (mkBrowser {[ App.STORAGE_KEY := Sample.JSON_stringify (VObj partial_doc) ]} [])
           {[ App.STORAGE_KEY := Sample.JSON_stringify (VObj [("projects", VStr "none")]) ]}).
  - reflexivity.
  - vm_compute. reflexivity.
  - reflexivity.
  - reflexivity.
  - reflexivity.
  - vm_compute. reflexivity.
  - reflexivity.
  - vm_compute. discriminate.
  - vm_compute. reflexivity.
Defined.

Lemma handleImport_writes_shared_slot_witness :
  AdminView.handleImport Sample.JSON_parse Sample.JSON_stringify
    (Sample.setItem 100000) (fun _ => true) (Some [backup_file]) (mkBrowser ∅ [])
  = mkBrowser {[ App.STORAGE_KEY := Sample.JSON_stringify backup_doc ]}
      [EvSetItem App.STORAGE_KEY (Sample.JSON_stringify backup_doc) true; EvReload].
Proof.
  apply (handleImport_writes_shared_slot Sample.JSON_parse Sample.JSON_stringify
           (Sample.setItem 100000) (fun _ => true) backup_file []
           (Sample.JSON_stringify backup_doc) backup_doc (VArr []) (mkBrowser ∅ [])
           {[ App.STORAGE_KEY := Sample.JSON_stringify backup_doc ]}).
  - reflexivity.
  - vm_compute. reflexivity.
  - reflexivity.
  - reflexivity.
  - reflexivity.
  - vm_compute. reflexivity.
Defined.
